(** * Ignition firmware for ROCKSANNE I-X (PIC 16F1824): FIRMWARE/main.c

    The firmware counts the pulses of the signal coming from the main board
    with TIMER1 during a window of about one second, compares the count with
    two frequency bands and drives two leds and the gate of the MOS that
    fires the spark plug.

    The C program is embedded shallowly: every C statement that touches a
    special function register is one primitive step of a state monad over
    the register file; the monad also emits, for every primitive step, the
    access made and the register file right after it, so that ordering
    properties ("the counter is stopped when it is read") can be stated on
    the emitted trace.  The input signal is part of the state: a list giving,
    for every primitive step still to come, how many pulses reach the
    counter pin while that step executes. *)

From Stdlib Require Import ZArith List Bool Lia.
Import ListNotations.
Open Scope Z_scope.

(** ** Special function registers *)

(** The registers named in main.c (all are 8 bits wide). *)
Inductive sfr : Set :=
| OSCCON | OPTION_REG | WDTCON
| ANSELA | ANSELC | INLVLA | TRISA | TRISC
| PORTA | PORTC | LATA | LATC
| CPSCON0 | CM1CON0 | CM1CON1 | CM2CON0 | CM2CON1
| FVRCON | MDCON | ADCON1 | DACCON0 | DACCON1
| CCP1CON | CCPR1L | PSTR1CON
| T1CON | T1GCON | TMR1H | TMR1L
| PR2 | T2CON | PR4 | T4CON | PR6 | T6CON
| INTCON | PIR1 | PIR2 | PIR3 | PIE1 | PIE2 | PIE3.

Scheme Equality for sfr.

(** The register file. *)
Definition regfile : Type := sfr -> Z.

Definition upd (r : sfr) (v : Z) (rs : regfile) : regfile :=
  fun r' => if sfr_beq r r' then v else rs r'.

(** A write to PORTx lands in the output latch LATx. *)
Definition latch_of (r : sfr) : sfr :=
  match r with
  | PORTA => LATA
  | PORTC => LATC
  | _ => r
  end.

(** [r = v;] on an 8-bit register. *)
Definition store (r : sfr) (v : Z) (rs : regfile) : regfile :=
  upd (latch_of r) (v mod 256) rs.

(** One bit of a register, as in [LATCbits.LATC0]. *)
Definition pin : Type := (sfr * Z)%type.

Definition pin_of (rs : regfile) (p : pin) : bool :=
  Z.testbit (rs (fst p)) (snd p).

(** [p = v;] on a one-bit field: only bit 0 of [v] is kept. *)
Definition store_bit (p : pin) (v : Z) (rs : regfile) : regfile :=
  upd (fst p)
      (if Z.testbit v 0 then Z.setbit (rs (fst p)) (snd p)
       else Z.clearbit (rs (fst p)) (snd p))
      rs.

(** ** DEFINE *)

(* PORTS *)
Definition LED_IGNITION : pin := (LATC, 0).
Definition LED_LINK : pin := (LATC, 1).
Definition MOS_GATE : pin := (LATC, 5).
Definition INPUT_DISABLE : pin := (LATA, 4).
(* bit 0 of T1CON, named by htc.h *)
Definition TMR1ON : pin := (T1CON, 0).

(* CONSTANTS *)
Definition IGNITION_MIN : Z := 300.
Definition IGNITION_MAX : Z := 600.
Definition YODA_MIN : Z := 4500.
Definition YODA_MAX : Z := 5500.

(* GENERAL UTILITY *)
Definition ON : Z := 1.
Definition OFF : Z := 0.

(** ** TIMER1 as a pulse counter *)

(** The 16-bit count held in the pair TMR1H:TMR1L. *)
Definition counter16 (rs : regfile) : Z := rs TMR1H * 256 + rs TMR1L.

(** [p] pulses reach the clock pin: the pair TMR1H:TMR1L advances by [p],
    rolling over at 2^16, when TMR1ON is set, and holds when it is clear. *)
Definition timer1_count (p : N) (rs : regfile) : regfile :=
  if pin_of rs TMR1ON then
    let c := (counter16 rs + Z.of_N p) mod 65536 in
    upd TMR1L (c mod 256) (upd TMR1H (c / 256) rs)
  else rs.

(** ** State, trace and monad *)

Record world : Type := mkWorld {
  regs : regfile;       (* special function registers *)
  freq : Z;             (* unsigned int freq, 16 bits *)
  input : list N        (* pulses arriving during each step to come *)
}.

Inductive event : Type :=
| Wr (r : sfr) (v : Z)
| WrBit (p : pin) (b : bool)
| Rd (r : sfr)
| RdBit (p : pin)
| DelayMs (ms : Z).

(** An observation: the access and the register file right after it. *)
Definition obs : Type := (event * regfile)%type.

Definition M (A : Type) : Type := world -> A * world * list obs.

Definition ret {A} (a : A) : M A := fun w => (a, w, []).

Definition bind {A B} (m : M A) (k : A -> M B) : M B :=
  fun w =>
    let '(a, w1, l1) := m w in
    let '(b, w2, l2) := k a w1 in
    (b, w2, l1 ++ l2).

Notation "x <- c1 ;; c2" := (bind c1 (fun x => c2))
  (at level 61, c1 at next level, right associativity).
Notation "c1 ;; c2" := (bind c1 (fun _ => c2))
  (at level 61, right associativity).

Definition result {A} (m : M A) (w : world) : A := fst (fst (m w)).
Definition exec {A} (m : M A) (w : world) : world := snd (fst (m w)).
Definition trace {A} (m : M A) (w : world) : list obs := snd (m w).

(** The environment's share of one primitive step: the pulses of the head of
    [input] reach the counter; an exhausted input is a silent line. *)
Definition tick (w : world) : world :=
  mkWorld (timer1_count (hd 0%N (input w)) (regs w)) (freq w) (tl (input w)).

Definition wr (r : sfr) (v : Z) : M unit :=
  fun w =>
    let w1 := tick w in
    let rs := store r v (regs w1) in
    (tt, mkWorld rs (freq w1) (input w1), [(Wr r v, rs)]).

Definition wr_bit (p : pin) (v : Z) : M unit :=
  fun w =>
    let w1 := tick w in
    let rs := store_bit p v (regs w1) in
    (tt, mkWorld rs (freq w1) (input w1), [(WrBit p (Z.testbit v 0), rs)]).

Definition rd (r : sfr) : M Z :=
  fun w =>
    let w1 := tick w in
    (regs w1 r, w1, [(Rd r, regs w1)]).

Definition rd_bit (p : pin) : M Z :=
  fun w =>
    let w1 := tick w in
    (Z.b2z (pin_of (regs w1) p), w1, [(RdBit p, regs w1)]).

Definition get_freq : M Z := fun w => (freq w, w, []).

(** [freq = v;] with [freq] an [unsigned int] of 16 bits. *)
Definition set_freq (v : Z) : M unit :=
  fun w => (tt, mkWorld (regs w) (v mod 65536) (input w), []).

(** The compiler's busy wait [__delay_ms(ms)]: one step during which nothing
    but the input signal moves. *)
Definition __delay_ms (ms : Z) : M unit :=
  fun w => let w1 := tick w in (tt, w1, [(DelayMs ms, regs w1)]).

(** [for(i=0;i<n;i++) body] with a body that does not use [i]. *)
Fixpoint for_ (n : nat) (body : M unit) : M unit :=
  match n with
  | O => ret tt
  | S k => body ;; for_ k body
  end.

(** ** FUNCTIONS *)

(** Initialization function *)
Definition init : M unit :=
  wr OSCCON 122 ;;          (* 0b01111010 *)
  wr OPTION_REG 136 ;;      (* 0b10001000 *)
  wr WDTCON 0 ;;
  wr ANSELA 0 ;;
  wr ANSELC 0 ;;
  wr INLVLA 0 ;;
  wr TRISA 56 ;;            (* 0b00111000 *)
  wr TRISC 0 ;;
  (* PORTS RESET *)
  wr PORTA 0 ;;
  wr PORTC 0 ;;
  (* LATCHS RESET *)
  wr LATA 0 ;;
  wr LATC 0 ;;
  wr CPSCON0 0 ;;
  wr CM1CON0 0 ;;
  wr CM1CON1 0 ;;
  wr CM2CON0 0 ;;
  wr CM2CON1 0 ;;
  wr FVRCON 0 ;;
  wr MDCON 0 ;;
  wr ADCON1 32 ;;           (* 0b00100000 *)
  wr DACCON0 64 ;;          (* 0b01000000 *)
  wr DACCON1 0 ;;
  wr CCP1CON 0 ;;
  wr CCPR1L 0 ;;
  wr PSTR1CON 0 ;;
  wr T1CON 132 ;;           (* 0b10000100: TMR1ON timer off *)
  wr T1GCON 68 ;;           (* 0b01000100 *)
  wr PR2 255 ;;
  wr T2CON 1 ;;
  wr PR4 255 ;;
  wr T4CON 0 ;;
  wr PR6 255 ;;
  wr T6CON 2 ;;
  wr INTCON 0 ;;
  wr PIR1 0 ;;
  wr PIR2 0 ;;
  wr PIR3 0 ;;
  wr PIE1 0 ;;
  wr PIE2 0 ;;
  wr PIE3 0.

(** Delay function: [delay] times one millisecond.  [delay] is the 16-bit
    parameter of the C function, from 0 to 65535: in that range the 16-bit
    loop variable reaches it without rolling over, and outside it this
    definition says nothing about the C function. *)
Definition delayerMs (delay : Z) : M unit :=
  for_ (Z.to_nat delay) (__delay_ms 1).

(** ** MAIN *)

(** One turn of the startup led cycle (lines 345-350). *)
Definition blink : M unit :=
  wr_bit LED_IGNITION ON ;;
  wr_bit LED_LINK OFF ;;
  delayerMs 50 ;;
  wr_bit LED_IGNITION OFF ;;
  wr_bit LED_LINK ON ;;
  delayerMs 50.

(** The startup led cycle (lines 343-351). *)
Definition startup : M unit := for_ 5 blink.

(** Lines 353-356: the counter is cleared before the loop. *)
Definition prelude : M unit :=
  wr TMR1H 0 ;;
  wr TMR1L 0 ;;
  wr_bit INPUT_DISABLE OFF.

(** Lines 360-362: the measurement window. *)
Definition gate_window : M unit :=
  wr_bit TMR1ON ON ;;
  delayerMs 1000 ;;
  wr_bit TMR1ON OFF.

(** Lines 365-366: the 16-bit word is recovered from the two registers. *)
Definition read_count : M unit :=
  h <- rd TMR1H ;;
  set_freq h ;;
  f <- get_freq ;;
  l <- rd TMR1L ;;
  set_freq (Z.lor (Z.shiftl f 8 mod 65536) l).

(** Lines 368-385: the three branches on the frequency. *)
Definition drive_outputs : M unit :=
  f <- get_freq ;;
  if (IGNITION_MIN <=? f) && (f <=? IGNITION_MAX) then
    wr_bit LED_IGNITION ON ;;
    wr_bit LED_LINK OFF ;;
    wr_bit MOS_GATE ON
  else if (YODA_MIN <=? f) && (f <=? YODA_MAX) then
    wr_bit LED_IGNITION OFF ;;
    (b <- rd_bit LED_LINK ;; wr_bit LED_LINK (Z.lnot b)) ;;
    wr_bit MOS_GATE OFF
  else
    wr_bit LED_IGNITION OFF ;;
    wr_bit MOS_GATE OFF ;;
    wr_bit LED_LINK ON.

(** Lines 386-387: resetting the values, for the next readings. *)
Definition reset_counter : M unit :=
  wr TMR1H 0 ;;
  wr TMR1L 0.

(** The body of [while (TRUE)]. *)
Definition loop_body : M unit :=
  gate_window ;; read_count ;; drive_outputs ;; reset_counter.

(** The first [n] turns of the infinite loop. *)
Definition cycles (n : nat) : M unit := for_ n loop_body.

(** [main], cut after [n] turns of its infinite loop. *)
Definition main (n : nat) : M unit :=
  init ;; startup ;; prelude ;; cycles n.

(** ** The frequency bands *)

Inductive band : Set := IGNITION | LINK_OK | IDLE.

(** The branch of lines 368-385 taken for a count [f]. *)
Definition classify (f : Z) : band :=
  if (IGNITION_MIN <=? f) && (f <=? IGNITION_MAX) then IGNITION
  else if (YODA_MIN <=? f) && (f <=? YODA_MAX) then LINK_OK
  else IDLE.

(** ** Vocabulary of the statements *)

(** The two registers the counter writes. *)
Definition is_tmr1 (r : sfr) : bool :=
  match r with
  | TMR1H | TMR1L => true
  | _ => false
  end.

(** Pulses delivered by the first [n] entries of an input. *)
Definition pulses (n : nat) (inp : list N) : Z :=
  fold_right (fun p acc => Z.of_N p + acc) 0 (firstn n inp).

(** Pulses counted by one turn of the loop started on input [inp]: those of
    the 1000 delay steps and of the step that stops the counter; the pulses
    arriving while TMR1ON is being set are not counted. *)
Definition window_pulses (inp : list N) : Z :=
  pulses (S (Z.to_nat 1000)) (tl inp).

(** The three outputs, read in a register file. *)
Definition ignitionLed (rs : regfile) : bool := pin_of rs LED_IGNITION.
Definition linkLed (rs : regfile) : bool := pin_of rs LED_LINK.
Definition mosGate (rs : regfile) : bool := pin_of rs MOS_GATE.

Definition outputs (rs : regfile) : bool * bool * bool :=
  (ignitionLed rs, linkLed rs, mosGate rs).

(** [m], run from [w], emits only observations satisfying [O] and ends with
    a result and a state satisfying [Q]. *)
Definition holds {A} (m : M A) (O : obs -> Prop) (Q : A -> world -> Prop)
    (w : world) : Prop :=
  Forall O (trace m w) /\ Q (result m w) (exec m w).

(** Observations in which the MOS gate is off. *)
Definition mos_off (o : obs) : Prop := mosGate (snd o) = false.

(** Observations that do not open a window on a non-zero count. *)
Definition opens_at_zero (o : obs) : Prop :=
  fst o = WrBit TMR1ON true -> snd o TMR1H = 0 /\ snd o TMR1L = 0.

(** Observations that do not read the count of a running counter. *)
Definition reads_stopped (o : obs) : Prop :=
  fst o = Rd TMR1H \/ fst o = Rd TMR1L -> pin_of (snd o) TMR1ON = false.

(** The state of the counter at the head of the loop. *)
Definition counter_idle (w : world) : Prop :=
  pin_of (regs w) TMR1ON = false /\ regs w TMR1H = 0 /\ regs w TMR1L = 0.

(** The two leds, millisecond by millisecond: every delay of [ms]
    milliseconds holds the leds for [ms] samples. *)
Definition waveform (l : list obs) : list (bool * bool) :=
  flat_map (fun o =>
              match fst o with
              | DelayMs ms => repeat (ignitionLed (snd o), linkLed (snd o))
                                     (Z.to_nat ms)
              | _ => []
              end) l.

(** The accesses of one turn of the startup led cycle. *)
Definition blink_events : list event :=
  [WrBit LED_IGNITION true; WrBit LED_LINK false] ++ repeat (DelayMs 1) 50 ++
  [WrBit LED_IGNITION false; WrBit LED_LINK true] ++ repeat (DelayMs 1) 50.

(** The leds during one turn of the startup led cycle. *)
Definition blink_wave : list (bool * bool) :=
  repeat (true, false) 50 ++ repeat (false, true) 50.

(** [b; negb b; b; ...], [n] values. *)
Fixpoint alternate (b : bool) (n : nat) : list bool :=
  match n with
  | O => []
  | S k => b :: alternate (negb b) k
  end.

(** The link led after each of the first [n] turns of the loop. *)
Definition link_history (n : nat) (w : world) : list bool :=
  map (fun k => linkLed (regs (exec (cycles (S k)) w))) (seq 0 n).

(** The state in which the loop is entered. *)
Definition loop_entry (w0 : world) : world :=
  exec (init ;; startup ;; prelude) w0.

(** A line silent for [n] steps. *)
Definition silence (n : nat) : list N := repeat 0%N n.

(** A power-on state: every register holds 0xFF, [freq] holds its
    initializer, the line carries [inp]. *)
Definition power_on (inp : list N) : world := mkWorld (fun _ => 255) 0 inp.

(** A power-on state as [power_on], but with bit 5 of LATC clear. *)
Definition power_on_gate_off (inp : list N) : world :=
  mkWorld (fun r => match r with LATC => 223 | _ => 255 end) 0 inp.

(** Steps of [main] before the loop: 40 in [init], 520 in the led cycle, 3
    to clear the counter and INPUT_DISABLE. *)
Definition steps_before_loop : nat := 563.

(** An input that is silent until the loop and then delivers [c1] pulses in
    the first window and [c2] in the second; [k1] is the number of steps of
    the first turn (1010 in the link branch, 1009 in the other two). *)
Definition two_windows (c1 : N) (k1 : nat) (c2 : N) : list N :=
  silence steps_before_loop ++ [0%N; c1] ++ silence (k1 - 2) ++ [0%N; c2].

(** Both halves of the count are bytes. *)
Definition byte_range (rs : regfile) : Prop :=
  0 <= rs TMR1H < 256 /\ 0 <= rs TMR1L < 256.

(** Equality of pins. *)
Definition pin_eqb (p q : pin) : bool :=
  sfr_beq (fst p) (fst q) && (snd p =? snd q).

(** A state with every register cleared and the line carrying [inp]. *)
Definition cleared (inp : list N) : world := mkWorld (fun _ => 0) 0 inp.

(** The first turn of the loop that finds the link frequency leaves the
    link led off, whatever the turns before it found. *)
Definition first_link_ok_turns_led_off : Prop :=
  forall w0 n,
    (forall k, (k < n)%nat ->
       classify (freq (exec (main (S k)) w0)) <> LINK_OK) ->
    classify (freq (exec (main (S n)) w0)) = LINK_OK ->
    linkLed (regs (exec (main (S n)) w0)) = false.

(** The registers that [init] configures and that the rest of [main] has no
    reason to touch: all but the two latches, the port aliases, T1CON and
    the count. *)
Definition configuration (r : sfr) : bool :=
  match r with
  | PORTA | PORTC | LATA | LATC | T1CON | TMR1H | TMR1L => false
  | _ => true
  end.

(** The configuration registers and the configuration bits of T1CON (all
    but TMR1ON) are those of the register file [c]. *)
Definition same_config (c rs : regfile) : Prop :=
  (forall r, configuration r = true -> rs r = c r) /\
  (forall k, 0 < k -> Z.testbit (rs T1CON) k = Z.testbit (c T1CON) k).

(** The registers that [init] writes: all but the count; the port aliases
    stand for their latches. *)
Definition initialised (r : sfr) : bool :=
  match r with
  | PORTA | PORTC | TMR1H | TMR1L => false
  | _ => true
  end.

(** The constants of [init]. *)
Definition init_setting (r : sfr) : Z :=
  match r with
  | OSCCON => 122
  | OPTION_REG => 136
  | TRISA => 56
  | ADCON1 => 32
  | DACCON0 => 64
  | T1CON => 132
  | T1GCON => 68
  | PR2 | PR4 | PR6 => 255
  | T2CON => 1
  | T6CON => 2
  | _ => 0
  end.

(** Milliseconds spent in the delays of a trace. *)
Definition elapsed_ms (l : list obs) : Z :=
  fold_right (fun o acc =>
                match fst o with
                | DelayMs ms => ms + acc
                | _ => acc
                end) 0 l.

(** Every run of [m] spends [t] milliseconds in delays. *)
Definition takes {A} (m : M A) (t : Z) : Prop :=
  forall w, elapsed_ms (trace m w) = t.

(** A line without pulses. *)
Definition silent (inp : list N) : Prop := Forall (fun p => p = 0%N) inp.

(** * Proofs *)

(** ** The monad *)

Lemma exec_bind {A B} (m : M A) (k : A -> M B) w :
  exec (bind m k) w = exec (k (result m w)) (exec m w).
Proof.
  unfold exec, result, bind.
  destruct (m w) as [[a w1] l1]; cbn.
  destruct (k a w1) as [[b w2] l2]; reflexivity.
Qed.

Lemma result_bind {A B} (m : M A) (k : A -> M B) w :
  result (bind m k) w = result (k (result m w)) (exec m w).
Proof.
  unfold exec, result, bind.
  destruct (m w) as [[a w1] l1]; cbn.
  destruct (k a w1) as [[b w2] l2]; reflexivity.
Qed.

Lemma trace_bind {A B} (m : M A) (k : A -> M B) w :
  trace (bind m k) w = trace m w ++ trace (k (result m w)) (exec m w).
Proof.
  unfold exec, result, trace, bind.
  destruct (m w) as [[a w1] l1]; cbn.
  destruct (k a w1) as [[b w2] l2]; reflexivity.
Qed.

Lemma exec_for_S n body w :
  exec (for_ (S n) body) w = exec (for_ n body) (exec body w).
Proof. cbn [for_]. apply exec_bind. Qed.

Lemma trace_for_S n body w :
  trace (for_ (S n) body) w = trace body w ++ trace (for_ n body) (exec body w).
Proof. cbn [for_]. apply trace_bind. Qed.

(** A loop of [n + 1] turns is a loop of [n] turns and one more turn. *)
Lemma exec_for_snoc n body w :
  exec (for_ (S n) body) w = exec body (exec (for_ n body) w).
Proof.
  revert w; induction n as [|n IH]; intro w.
  - rewrite exec_for_S. reflexivity.
  - rewrite exec_for_S, IH, <- exec_for_S. reflexivity.
Qed.

Lemma trace_for_snoc n body w :
  trace (for_ (S n) body) w =
  trace (for_ n body) w ++ trace body (exec (for_ n body) w).
Proof.
  revert w; induction n as [|n IH]; intro w.
  - cbn [for_]. rewrite trace_bind. cbn. now rewrite app_nil_r.
  - rewrite trace_for_S, IH, app_assoc, <- trace_for_S, <- exec_for_S.
    reflexivity.
Qed.

(** ** Rules for [holds] *)

Lemma holds_ret {A} (a : A) O (Q : A -> world -> Prop) w :
  Q a w -> holds (ret a) O Q w.
Proof. intro H; split; [constructor | exact H]. Qed.

Lemma holds_bind {A B} (m : M A) (k : A -> M B) O Q w :
  holds m O (fun a w1 => holds (k a) O Q w1) w -> holds (bind m k) O Q w.
Proof.
  intros [Hm [Hk HQ]]. split.
  - rewrite trace_bind. apply Forall_app; split; assumption.
  - rewrite result_bind, exec_bind. exact HQ.
Qed.

Lemma holds_weaken {A} (m : M A) O (Q Q' : A -> world -> Prop) w :
  holds m O Q w -> (forall a w', Q a w' -> Q' a w') -> holds m O Q' w.
Proof. intros [Hm HQ] Himp; split; [exact Hm | apply Himp, HQ]. Qed.

(** A loop keeps what its body keeps. *)
Lemma holds_for n body O (I : world -> Prop) :
  (forall w, I w -> holds body O (fun _ => I) w) ->
  forall w, I w -> holds (for_ n body) O (fun _ => I) w.
Proof.
  intro Hbody. induction n as [|n IH]; intros w Hw.
  - apply holds_ret, Hw.
  - cbn [for_]. apply holds_bind.
    eapply holds_weaken; [apply Hbody, Hw|].
    intros u w' Hw'. apply IH, Hw'.
Qed.

Lemma holds_wr r v O (Q : unit -> world -> Prop) w :
  O (Wr r v, regs (exec (wr r v) w)) -> Q tt (exec (wr r v) w) ->
  holds (wr r v) O Q w.
Proof. intros HO HQ; split; [repeat constructor; exact HO | exact HQ]. Qed.

Lemma holds_wr_bit p v O (Q : unit -> world -> Prop) w :
  O (WrBit p (Z.testbit v 0), regs (exec (wr_bit p v) w)) ->
  Q tt (exec (wr_bit p v) w) ->
  holds (wr_bit p v) O Q w.
Proof. intros HO HQ; split; [repeat constructor; exact HO | exact HQ]. Qed.

Lemma holds_rd r O (Q : Z -> world -> Prop) w :
  O (Rd r, regs (exec (rd r) w)) -> Q (result (rd r) w) (exec (rd r) w) ->
  holds (rd r) O Q w.
Proof. intros HO HQ; split; [repeat constructor; exact HO | exact HQ]. Qed.

Lemma holds_rd_bit p O (Q : Z -> world -> Prop) w :
  O (RdBit p, regs (exec (rd_bit p) w)) ->
  Q (result (rd_bit p) w) (exec (rd_bit p) w) ->
  holds (rd_bit p) O Q w.
Proof. intros HO HQ; split; [repeat constructor; exact HO | exact HQ]. Qed.

Lemma holds_delay ms O (Q : unit -> world -> Prop) w :
  O (DelayMs ms, regs (exec (__delay_ms ms) w)) ->
  Q tt (exec (__delay_ms ms) w) ->
  holds (__delay_ms ms) O Q w.
Proof. intros HO HQ; split; [repeat constructor; exact HO | exact HQ]. Qed.

Lemma holds_get_freq O (Q : Z -> world -> Prop) w :
  Q (freq w) w -> holds get_freq O Q w.
Proof. intro HQ; split; [constructor | exact HQ]. Qed.

Lemma holds_set_freq v O (Q : unit -> world -> Prop) w :
  Q tt (exec (set_freq v) w) -> holds (set_freq v) O Q w.
Proof. intro HQ; split; [constructor | exact HQ]. Qed.

(** ** Registers after one step *)

Lemma sfr_beq_refl r : sfr_beq r r = true.
Proof. now apply internal_sfr_dec_lb. Qed.

Lemma timer1_count_other p rs r :
  is_tmr1 r = false -> timer1_count p rs r = rs r.
Proof.
  intro Hr. unfold timer1_count.
  destruct (pin_of rs TMR1ON); [|reflexivity].
  unfold upd. destruct r; try discriminate Hr; reflexivity.
Qed.

Lemma timer1_count_off p rs :
  pin_of rs TMR1ON = false -> timer1_count p rs = rs.
Proof. intro H. unfold timer1_count. now rewrite H. Qed.

Lemma tick_other w r : is_tmr1 r = false -> regs (tick w) r = regs w r.
Proof. apply timer1_count_other. Qed.

Lemma tick_off w : pin_of (regs w) TMR1ON = false -> regs (tick w) = regs w.
Proof. apply timer1_count_off. Qed.

Lemma tick_freq w : freq (tick w) = freq w.
Proof. reflexivity. Qed.

Lemma tick_input w : input (tick w) = tl (input w).
Proof. reflexivity. Qed.

Lemma regs_wr r v w : regs (exec (wr r v) w) = store r v (regs (tick w)).
Proof. reflexivity. Qed.

Lemma regs_wr_bit p v w :
  regs (exec (wr_bit p v) w) = store_bit p v (regs (tick w)).
Proof. reflexivity. Qed.

Lemma regs_rd r w : regs (exec (rd r) w) = regs (tick w).
Proof. reflexivity. Qed.

Lemma regs_rd_bit p w : regs (exec (rd_bit p) w) = regs (tick w).
Proof. reflexivity. Qed.

Lemma regs_delay ms w : regs (exec (__delay_ms ms) w) = regs (tick w).
Proof. reflexivity. Qed.

Lemma regs_set_freq v w : regs (exec (set_freq v) w) = regs w.
Proof. reflexivity. Qed.

Lemma regs_get_freq w : regs (exec get_freq w) = regs w.
Proof. reflexivity. Qed.

Lemma freq_wr r v w : freq (exec (wr r v) w) = freq w.
Proof. reflexivity. Qed.

Lemma freq_wr_bit p v w : freq (exec (wr_bit p v) w) = freq w.
Proof. reflexivity. Qed.

Lemma freq_rd r w : freq (exec (rd r) w) = freq w.
Proof. reflexivity. Qed.

Lemma freq_rd_bit p w : freq (exec (rd_bit p) w) = freq w.
Proof. reflexivity. Qed.

Lemma freq_delay ms w : freq (exec (__delay_ms ms) w) = freq w.
Proof. reflexivity. Qed.

Lemma freq_set_freq v w : freq (exec (set_freq v) w) = v mod 65536.
Proof. reflexivity. Qed.

Lemma freq_get_freq w : freq (exec get_freq w) = freq w.
Proof. reflexivity. Qed.

Lemma result_rd r w : result (rd r) w = regs (tick w) r.
Proof. reflexivity. Qed.

Lemma result_rd_bit p w : result (rd_bit p) w = Z.b2z (pin_of (regs (tick w)) p).
Proof. reflexivity. Qed.

Lemma result_get_freq w : result get_freq w = freq w.
Proof. reflexivity. Qed.

(** A register other than the one written keeps its value. *)
Lemma store_other r v rs r' : latch_of r <> r' -> store r v rs r' = rs r'.
Proof.
  intro H. unfold store, upd.
  destruct (sfr_beq (latch_of r) r') eqn:E; [|reflexivity].
  apply internal_sfr_dec_bl in E. contradiction.
Qed.

Lemma store_same r v rs : store r v rs (latch_of r) = v mod 256.
Proof. unfold store, upd. now rewrite sfr_beq_refl. Qed.

Lemma store_bit_other p v rs r' : fst p <> r' -> store_bit p v rs r' = rs r'.
Proof.
  intro H. unfold store_bit, upd.
  destruct (sfr_beq (fst p) r') eqn:E; [|reflexivity].
  apply internal_sfr_dec_bl in E. contradiction.
Qed.

(** The bit written takes bit 0 of the value. *)
Lemma store_bit_same p v rs :
  0 <= snd p -> pin_of (store_bit p v rs) p = Z.testbit v 0.
Proof.
  intro Hk. unfold pin_of, store_bit, upd. rewrite sfr_beq_refl.
  destruct (Z.testbit v 0).
  - now apply Z.setbit_eq.
  - apply Z.clearbit_eq.
Qed.

(** The other bits of the register written keep their values. *)
Lemma store_bit_other_bit p v rs k :
  0 <= snd p -> snd p <> k ->
  pin_of (store_bit p v rs) (fst p, k) = pin_of rs (fst p, k).
Proof.
  intros Hk Hne. unfold pin_of, store_bit, upd. cbn [fst snd].
  rewrite sfr_beq_refl.
  destruct (Z.testbit v 0).
  - now apply Z.setbit_neq.
  - now apply Z.clearbit_neq.
Qed.

Lemma store_bit_other_reg p v rs q :
  fst p <> fst q -> pin_of (store_bit p v rs) q = pin_of rs q.
Proof. intro H. unfold pin_of. now rewrite store_bit_other. Qed.

(** ** The counter under a run of steps *)

Lemma exec_delays n w : exec (for_ n (__delay_ms 1)) w = Nat.iter n tick w.
Proof.
  revert w; induction n as [|n IH]; intro w.
  - reflexivity.
  - rewrite exec_for_snoc, IH. reflexivity.
Qed.

Lemma iter_tick_freq n w : freq (Nat.iter n tick w) = freq w.
Proof. induction n as [|n IH]; [reflexivity | now rewrite Nat.iter_succ]. Qed.

Lemma iter_tick_other n w r :
  is_tmr1 r = false -> regs (Nat.iter n tick w) r = regs w r.
Proof.
  intro Hr. induction n as [|n IH]; [reflexivity|].
  rewrite Nat.iter_succ. now rewrite tick_other.
Qed.

Lemma iter_tick_pin n w p :
  is_tmr1 (fst p) = false ->
  pin_of (regs (Nat.iter n tick w)) p = pin_of (regs w) p.
Proof. intro Hp. unfold pin_of. now rewrite iter_tick_other. Qed.

Lemma iter_tick_off n w :
  pin_of (regs w) TMR1ON = false -> regs (Nat.iter n tick w) = regs w.
Proof.
  intro Hoff. induction n as [|n IH]; [reflexivity|].
  rewrite Nat.iter_succ. rewrite tick_off; [exact IH|].
  now rewrite IH.
Qed.

Lemma iter_tick_input n w : input (Nat.iter n tick w) = skipn n (input w).
Proof.
  revert w; induction n as [|n IH]; intro w; [reflexivity|].
  rewrite Nat.iter_succ_r, IH. cbn [tick input].
  destruct (input w); [now rewrite skipn_nil | reflexivity].
Qed.


Lemma tick_count w :
  pin_of (regs w) TMR1ON = true ->
  counter16 (regs (tick w)) =
    (counter16 (regs w) + Z.of_N (hd 0%N (input w))) mod 65536 /\
  byte_range (regs (tick w)).
Proof.
  intro Hon. cbn [tick regs]. unfold timer1_count. rewrite Hon.
  set (c := (counter16 (regs w) + Z.of_N (hd 0%N (input w))) mod 65536).
  assert (Hc : 0 <= c < 65536) by (apply Z.mod_pos_bound; lia).
  unfold byte_range, counter16, upd. cbn [sfr_beq].
  split; [|split].
  - rewrite Z.mul_comm. symmetry. apply Z.div_mod. lia.
  - split; [apply Z.div_pos; lia | apply Z.div_lt_upper_bound; lia].
  - apply Z.mod_pos_bound. lia.
Qed.

Lemma pulses_S n inp :
  pulses (S n) inp = Z.of_N (hd 0%N inp) + pulses n (tl inp).
Proof.
  unfold pulses. destruct inp as [|p inp]; cbn.
  - now rewrite firstn_nil.
  - reflexivity.
Qed.

Lemma iter_tick_count n w :
  pin_of (regs w) TMR1ON = true -> byte_range (regs w) ->
  counter16 (regs (Nat.iter n tick w)) =
    (counter16 (regs w) + pulses n (input w)) mod 65536 /\
  byte_range (regs (Nat.iter n tick w)).
Proof.
  revert w; induction n as [|n IH]; intros w Hon Hrange.
  - change (Nat.iter 0 tick w) with w. split; [|exact Hrange].
    unfold pulses; cbn. rewrite Z.add_0_r. symmetry. apply Z.mod_small.
    unfold byte_range, counter16 in *. lia.
  - rewrite Nat.iter_succ_r.
    destruct (tick_count w Hon) as [Hc Hr].
    assert (Hon' : pin_of (regs (tick w)) TMR1ON = true).
    { unfold pin_of. now rewrite tick_other. }
    destruct (IH (tick w) Hon' Hr) as [Hc' Hr']. split; [|exact Hr'].
    rewrite Hc', Hc, pulses_S. cbn [tick input].
    rewrite Z.add_mod_idemp_l by lia. f_equal. lia.
Qed.


(** ** Pins after one step *)

Lemma pin_tick w q :
  is_tmr1 (fst q) = false -> pin_of (regs (tick w)) q = pin_of (regs w) q.
Proof. intro Hq. unfold pin_of. now rewrite tick_other. Qed.

Lemma pin_wr r v w q :
  is_tmr1 (fst q) = false ->
  pin_of (regs (exec (wr r v) w)) q =
    if sfr_beq (latch_of r) (fst q) then Z.testbit (v mod 256) (snd q)
    else pin_of (regs w) q.
Proof.
  intro Hq. rewrite regs_wr. unfold pin_of, store, upd.
  destruct (sfr_beq (latch_of r) (fst q)); [reflexivity|].
  now rewrite tick_other.
Qed.

Lemma pin_wr_bit p v w q :
  is_tmr1 (fst q) = false -> (0 <=? snd p) = true ->
  pin_of (regs (exec (wr_bit p v) w)) q =
    if pin_eqb p q then Z.testbit v 0 else pin_of (regs w) q.
Proof.
  intros Hq Hp. apply Z.leb_le in Hp. rewrite regs_wr_bit.
  destruct q as [r k], p as [r0 j]. cbn [fst snd] in *. unfold pin_eqb.
  cbn [fst snd].
  destruct (sfr_beq r0 r) eqn:Er; cbn [andb].
  - apply internal_sfr_dec_bl in Er. subst r.
    destruct (Z.eqb_spec j k) as [->|Hne].
    + now apply (store_bit_same (r0, k)).
    + rewrite (store_bit_other_bit (r0, j)) by assumption. now apply pin_tick.
  - rewrite store_bit_other_reg.
    + now apply pin_tick.
    + cbn [fst]. intros ->. now rewrite sfr_beq_refl in Er.
Qed.

Lemma pin_rd r w q :
  is_tmr1 (fst q) = false ->
  pin_of (regs (exec (rd r) w)) q = pin_of (regs w) q.
Proof. apply pin_tick. Qed.

Lemma pin_rd_bit p w q :
  is_tmr1 (fst q) = false ->
  pin_of (regs (exec (rd_bit p) w)) q = pin_of (regs w) q.
Proof. apply pin_tick. Qed.

Lemma pin_delay ms w q :
  is_tmr1 (fst q) = false ->
  pin_of (regs (exec (__delay_ms ms) w)) q = pin_of (regs w) q.
Proof. apply pin_tick. Qed.

Lemma exec_delayerMs d w :
  exec (delayerMs d) w = Nat.iter (Z.to_nat d) tick w.
Proof. apply exec_delays. Qed.

Lemma trace_delays n w :
  trace (for_ n (__delay_ms 1)) w =
  map (fun k => (DelayMs 1, regs (Nat.iter (S k) tick w))) (seq 0 n).
Proof.
  induction n as [|n IH].
  - reflexivity.
  - rewrite trace_for_snoc, IH, exec_delays, seq_S, map_app. reflexivity.
Qed.

Lemma holds_delayerMs d O (Q : unit -> world -> Prop) w :
  (forall k, O (DelayMs 1, regs (Nat.iter (S k) tick w))) ->
  Q tt (Nat.iter (Z.to_nat d) tick w) ->
  holds (delayerMs d) O Q w.
Proof.
  intros HO HQ. split.
  - unfold delayerMs. rewrite trace_delays. apply Forall_map, Forall_forall.
    intros k _. apply HO.
  - rewrite exec_delayerMs. destruct (result (delayerMs d) w). exact HQ.
Qed.

(** Pins of the registers that the counter does not write, tracked back
    through the steps taken. *)
Ltac pins :=
  repeat match goal with
    | |- context [pin_of (regs (exec (wr_bit ?p ?v) ?w)) ?q] =>
        rewrite (pin_wr_bit p v w q) by reflexivity
    | |- context [pin_of (regs (exec (wr ?r ?v) ?w)) ?q] =>
        rewrite (pin_wr r v w q) by reflexivity
    | |- context [pin_of (regs (exec (rd ?r) ?w)) ?q] =>
        rewrite (pin_rd r w q) by reflexivity
    | |- context [pin_of (regs (exec (rd_bit ?p) ?w)) ?q] =>
        rewrite (pin_rd_bit p w q) by reflexivity
    | |- context [pin_of (regs (exec (__delay_ms ?ms) ?w)) ?q] =>
        rewrite (pin_delay ms w q) by reflexivity
    | |- context [regs (exec (set_freq ?v) ?w)] =>
        change (regs (exec (set_freq v) w)) with (regs w)
    | |- context [regs (exec get_freq ?w)] =>
        change (regs (exec get_freq w)) with (regs w)
    | |- context [pin_of (regs (Nat.iter ?n tick ?w)) ?q] =>
        rewrite (iter_tick_pin n w q) by reflexivity
    | |- context [pin_of (regs (tick ?w)) ?q] =>
        rewrite (pin_tick w q) by reflexivity
    end;
  cbn [pin_eqb sfr_beq latch_of fst snd andb Z.eqb Pos.eqb
       LED_IGNITION LED_LINK MOS_GATE INPUT_DISABLE TMR1ON].

Ltac unbind :=
  repeat match goal with
         | |- context [exec (bind ?m ?k) ?w] =>
             rewrite (exec_bind m k w); cbv beta
         end.

(** ** The measurement window *)

Lemma gate_window_exec w :
  exec gate_window w =
  exec (wr_bit TMR1ON OFF)
       (Nat.iter (Z.to_nat 1000) tick (exec (wr_bit TMR1ON ON) w)).
Proof. unfold gate_window. unbind. now rewrite exec_delayerMs. Qed.

Lemma gate_window_pin w q :
  is_tmr1 (fst q) = false -> pin_eqb TMR1ON q = false ->
  pin_of (regs (exec gate_window w)) q = pin_of (regs w) q.
Proof.
  intros Hq Hne. rewrite gate_window_exec.
  rewrite pin_wr_bit, Hne, iter_tick_pin, pin_wr_bit, Hne by (reflexivity || assumption).
  reflexivity.
Qed.

Lemma gate_window_stopped w : pin_of (regs (exec gate_window w)) TMR1ON = false.
Proof. rewrite gate_window_exec. now pins. Qed.

Lemma gate_window_freq w : freq (exec gate_window w) = freq w.
Proof.
  rewrite gate_window_exec, freq_wr_bit, iter_tick_freq. reflexivity.
Qed.

Lemma gate_window_range w : byte_range (regs (exec gate_window w)).
Proof.
  rewrite gate_window_exec, regs_wr_bit.
  set (w2 := Nat.iter _ tick _).
  assert (Hon : pin_of (regs w2) TMR1ON = true) by (subst w2; now pins).
  destruct (tick_count w2 Hon) as [_ Hr].
  unfold byte_range in *. now rewrite !store_bit_other by discriminate.
Qed.

(** Started on a cleared counter, the window counts its own pulses. *)
Lemma window_count n w :
  counter_idle w ->
  counter16 (regs (exec (wr_bit TMR1ON OFF)
                        (Nat.iter n tick (exec (wr_bit TMR1ON ON) w)))) =
  pulses (S n) (tl (input w)) mod 65536.
Proof.
  intros (Hoff & HH & HL). rewrite regs_wr_bit.
  set (w1 := exec (wr_bit TMR1ON ON) w).
  rewrite <- Nat.iter_succ.
  assert (Hon : pin_of (regs w1) TMR1ON = true) by (subst w1; now pins).
  assert (H1 : regs w1 TMR1H = 0 /\ regs w1 TMR1L = 0).
  { subst w1. rewrite regs_wr_bit, !store_bit_other by discriminate.
    now rewrite tick_off. }
  assert (Hr : byte_range (regs w1)) by (unfold byte_range; lia).
  destruct (iter_tick_count (S n) w1 Hon Hr) as [Hc _].
  unfold counter16 in *. rewrite !store_bit_other by discriminate.
  rewrite Hc. destruct H1 as [-> ->]. reflexivity.
Qed.

Lemma gate_window_count w :
  counter_idle w ->
  counter16 (regs (exec gate_window w)) = window_pulses (input w) mod 65536.
Proof. intro Hw. rewrite gate_window_exec. now apply window_count. Qed.

(** ** Reading the count *)

Lemma lor_bytes h l :
  0 <= h < 256 -> 0 <= l < 256 ->
  Z.lor (Z.shiftl (h mod 65536) 8 mod 65536) l mod 65536 = h * 256 + l.
Proof.
  intros Hh Hl.
  rewrite (Z.mod_small h) by lia.
  rewrite Z.shiftl_mul_pow2 by lia. change (2 ^ 8) with 256.
  rewrite (Z.mod_small (h * 256)) by lia.
  assert (Hland : Z.land (h * 256) l = 0).
  { apply Z.bits_inj'. intros n Hn. rewrite Z.land_spec, Z.bits_0.
    destruct (Z.ltb_spec n 8).
    - change 256 with (2 ^ 8). rewrite Z.mul_pow2_bits_low by lia. reflexivity.
    - rewrite <- (Z.mod_small l 256) by lia. change 256 with (2 ^ 8).
      rewrite Z.mod_pow2_bits_high by lia. apply andb_false_r. }
  rewrite <- Z.lxor_lor, <- Z.add_nocarry_lxor by assumption.
  apply Z.mod_small. lia.
Qed.

Lemma read_count_exec w :
  pin_of (regs w) TMR1ON = false ->
  regs (exec read_count w) = regs w /\
  freq (exec read_count w) =
    Z.lor (Z.shiftl (regs w TMR1H mod 65536) 8 mod 65536) (regs w TMR1L)
      mod 65536.
Proof.
  intro Hoff. unfold read_count. unbind.
  set (w1 := exec (rd TMR1H) w).
  assert (H1 : regs w1 = regs w) by now apply tick_off.
  set (w2 := exec get_freq (exec (set_freq (result (rd TMR1H) w)) w1)).
  assert (H2 : regs w2 = regs w) by exact H1.
  set (w3 := exec (rd TMR1L) w2).
  assert (H3 : regs w3 = regs w).
  { subst w3. rewrite regs_rd, tick_off; [exact H2 | now rewrite H2]. }
  split.
  - exact H3.
  - change (Z.lor (Z.shiftl (regs w1 TMR1H mod 65536) 8 mod 65536)
                  (regs w3 TMR1L) mod 65536 =
            Z.lor (Z.shiftl (regs w TMR1H mod 65536) 8 mod 65536)
                  (regs w TMR1L) mod 65536).
    now rewrite H1, H3.
Qed.

Lemma read_count_value w :
  pin_of (regs w) TMR1ON = false -> byte_range (regs w) ->
  freq (exec read_count w) = counter16 (regs w).
Proof.
  intros Hoff [Hh Hl]. destruct (read_count_exec w Hoff) as [_ ->].
  now apply lor_bytes.
Qed.

Lemma read_count_regs w :
  pin_of (regs w) TMR1ON = false -> regs (exec read_count w) = regs w.
Proof. intro Hoff. now destruct (read_count_exec w Hoff). Qed.

(** ** Driving the outputs *)

Lemma drive_outputs_exec w :
  exec drive_outputs w =
  match classify (freq w) with
  | IGNITION =>
      exec (wr_bit LED_IGNITION ON ;; wr_bit LED_LINK OFF ;; wr_bit MOS_GATE ON) w
  | LINK_OK =>
      exec (wr_bit LED_IGNITION OFF ;;
            (b <- rd_bit LED_LINK ;; wr_bit LED_LINK (Z.lnot b)) ;;
            wr_bit MOS_GATE OFF) w
  | IDLE =>
      exec (wr_bit LED_IGNITION OFF ;; wr_bit MOS_GATE OFF ;; wr_bit LED_LINK ON) w
  end.
Proof.
  unfold drive_outputs, classify. rewrite exec_bind, result_get_freq.
  change (exec get_freq w) with w.
  destruct ((IGNITION_MIN <=? freq w) && (freq w <=? IGNITION_MAX)); [reflexivity|].
  destruct ((YODA_MIN <=? freq w) && (freq w <=? YODA_MAX)); reflexivity.
Qed.

Lemma trace_drive_outputs w :
  trace drive_outputs w =
  match classify (freq w) with
  | IGNITION =>
      trace (wr_bit LED_IGNITION ON ;; wr_bit LED_LINK OFF ;; wr_bit MOS_GATE ON) w
  | LINK_OK =>
      trace (wr_bit LED_IGNITION OFF ;;
             (b <- rd_bit LED_LINK ;; wr_bit LED_LINK (Z.lnot b)) ;;
             wr_bit MOS_GATE OFF) w
  | IDLE =>
      trace (wr_bit LED_IGNITION OFF ;; wr_bit MOS_GATE OFF ;; wr_bit LED_LINK ON) w
  end.
Proof.
  unfold drive_outputs, classify. rewrite trace_bind, result_get_freq.
  change (exec get_freq w) with w. change (trace get_freq w) with (@nil obs).
  cbn [app].
  destruct ((IGNITION_MIN <=? freq w) && (freq w <=? IGNITION_MAX)); [reflexivity|].
  destruct ((YODA_MIN <=? freq w) && (freq w <=? YODA_MAX)); reflexivity.
Qed.

Lemma lnot_b2z_bit0 b : Z.testbit (Z.lnot (Z.b2z b)) 0 = negb b.
Proof. rewrite Z.lnot_spec by lia. now rewrite Z.b2z_bit0. Qed.

Lemma drive_outputs_freq w : freq (exec drive_outputs w) = freq w.
Proof.
  rewrite drive_outputs_exec.
  destruct (classify (freq w)); unbind; reflexivity.
Qed.

Lemma drive_outputs_outputs w :
  outputs (regs (exec drive_outputs w)) =
  match classify (freq w) with
  | IGNITION => (true, false, true)
  | LINK_OK => (false, negb (linkLed (regs w)), false)
  | IDLE => (false, true, false)
  end.
Proof.
  rewrite drive_outputs_exec. unfold outputs, ignitionLed, linkLed, mosGate.
  destruct (classify (freq w)); unbind; pins; try reflexivity.
  rewrite result_rd_bit, lnot_b2z_bit0. pins. reflexivity.
Qed.

Lemma drive_outputs_stopped w :
  pin_of (regs (exec drive_outputs w)) TMR1ON = pin_of (regs w) TMR1ON.
Proof.
  rewrite drive_outputs_exec.
  destruct (classify (freq w)); unbind; pins; reflexivity.
Qed.

(** ** Clearing the counter *)

Lemma clear_counter_idle w :
  pin_of (regs w) TMR1ON = false ->
  counter_idle (exec (wr TMR1H 0 ;; wr TMR1L 0) w).
Proof.
  intro Hoff. unbind. unfold counter_idle.
  split; [now pins | split].
  - rewrite regs_wr, store_other by discriminate.
    rewrite tick_off by now pins.
    rewrite regs_wr. apply (store_same TMR1H).
  - rewrite regs_wr. apply (store_same TMR1L).
Qed.

Lemma reset_counter_idle w :
  pin_of (regs w) TMR1ON = false -> counter_idle (exec reset_counter w).
Proof. apply clear_counter_idle. Qed.

Lemma reset_counter_freq w : freq (exec reset_counter w) = freq w.
Proof. unfold reset_counter. unbind. reflexivity. Qed.

Lemma reset_counter_outputs w :
  outputs (regs (exec reset_counter w)) = outputs (regs w).
Proof.
  unfold reset_counter, outputs, ignitionLed, linkLed, mosGate. unbind.
  pins. reflexivity.
Qed.

(** ** One turn of the loop *)

Lemma loop_body_exec w :
  exec loop_body w =
  exec reset_counter (exec drive_outputs (exec read_count (exec gate_window w))).
Proof. unfold loop_body. unbind. reflexivity. Qed.

Lemma read_count_after_window w :
  regs (exec read_count (exec gate_window w)) = regs (exec gate_window w) /\
  freq (exec read_count (exec gate_window w)) =
    counter16 (regs (exec gate_window w)).
Proof.
  split.
  - apply read_count_regs, gate_window_stopped.
  - apply read_count_value; [apply gate_window_stopped | apply gate_window_range].
Qed.

Lemma loop_body_freq w :
  freq (exec loop_body w) = counter16 (regs (exec gate_window w)).
Proof.
  rewrite loop_body_exec, reset_counter_freq, drive_outputs_freq.
  apply read_count_after_window.
Qed.

Lemma loop_body_outputs w :
  outputs (regs (exec loop_body w)) =
  match classify (freq (exec loop_body w)) with
  | IGNITION => (true, false, true)
  | LINK_OK => (false, negb (linkLed (regs w)), false)
  | IDLE => (false, true, false)
  end.
Proof.
  rewrite loop_body_freq.
  rewrite loop_body_exec, reset_counter_outputs, drive_outputs_outputs.
  destruct (read_count_after_window w) as [Hr ->].
  unfold linkLed. rewrite Hr, gate_window_pin by reflexivity. reflexivity.
Qed.

Lemma loop_body_idle w : counter_idle (exec loop_body w).
Proof.
  rewrite loop_body_exec. apply reset_counter_idle.
  rewrite drive_outputs_stopped.
  destruct (read_count_after_window w) as [-> _]. apply gate_window_stopped.
Qed.

Lemma loop_body_count w :
  counter_idle w ->
  freq (exec loop_body w) = window_pulses (input w) mod 65536.
Proof. intro Hw. rewrite loop_body_freq. now apply gate_window_count. Qed.

(** ** [main] turn by turn *)

Lemma loop_entry_exec w0 :
  loop_entry w0 = exec prelude (exec startup (exec init w0)).
Proof. unfold loop_entry. unbind. reflexivity. Qed.

Lemma exec_main n w0 : exec (main n) w0 = exec (cycles n) (loop_entry w0).
Proof. unfold main, loop_entry. unbind. reflexivity. Qed.

Lemma exec_cycles_S n w : exec (cycles (S n)) w = exec loop_body (exec (cycles n) w).
Proof. apply exec_for_snoc. Qed.

Lemma exec_main_S n w0 :
  exec (main (S n)) w0 = exec loop_body (exec (main n) w0).
Proof. now rewrite !exec_main, exec_cycles_S. Qed.

Lemma triple_eq {A B C} (a a' : A) (b b' : B) (c c' : C) :
  (a, b, c) = (a', b', c') -> a = a' /\ b = b' /\ c = c'.
Proof. intro H. injection H as -> -> ->. repeat split. Qed.

(** ** The classifier *)

Lemma classify_ignition n : classify n = IGNITION <-> 300 <= n <= 600.
Proof.
  unfold classify, IGNITION_MIN, IGNITION_MAX, YODA_MIN, YODA_MAX.
  destruct (Z.leb_spec 300 n), (Z.leb_spec n 600); cbn [andb];
    try (split; [discriminate || lia | lia || reflexivity]);
    destruct (Z.leb_spec 4500 n), (Z.leb_spec n 5500); cbn [andb];
    split; (discriminate || lia || reflexivity).
Qed.

Lemma classify_link_ok n : classify n = LINK_OK <-> 4500 <= n <= 5500.
Proof.
  unfold classify, IGNITION_MIN, IGNITION_MAX, YODA_MIN, YODA_MAX.
  destruct (Z.leb_spec 300 n), (Z.leb_spec n 600); cbn [andb];
    try (split; [discriminate || lia | lia || reflexivity]);
    destruct (Z.leb_spec 4500 n), (Z.leb_spec n 5500); cbn [andb];
    split; (discriminate || lia || reflexivity).
Qed.

Lemma classify_idle n :
  classify n = IDLE <-> ~ 300 <= n <= 600 /\ ~ 4500 <= n <= 5500.
Proof.
  unfold classify, IGNITION_MIN, IGNITION_MAX, YODA_MIN, YODA_MAX.
  destruct (Z.leb_spec 300 n), (Z.leb_spec n 600); cbn [andb];
    try (split; [discriminate || lia | lia || reflexivity]);
    destruct (Z.leb_spec 4500 n), (Z.leb_spec n 5500); cbn [andb];
    split; (discriminate || lia || reflexivity).
Qed.

(** The branch of lines 368-385 that [drive_outputs] runs, by the count. *)
Lemma drive_outputs_branch w :
  drive_outputs w =
  match classify (freq w) with
  | IGNITION =>
      (wr_bit LED_IGNITION ON ;; wr_bit LED_LINK OFF ;; wr_bit MOS_GATE ON) w
  | LINK_OK =>
      (wr_bit LED_IGNITION OFF ;;
       (b <- rd_bit LED_LINK ;; wr_bit LED_LINK (Z.lnot b)) ;;
       wr_bit MOS_GATE OFF) w
  | IDLE =>
      (wr_bit LED_IGNITION OFF ;; wr_bit MOS_GATE OFF ;; wr_bit LED_LINK ON) w
  end.
Proof.
  unfold drive_outputs, classify.
  destruct ((IGNITION_MIN <=? freq w) && (freq w <=? IGNITION_MAX)) eqn:E1.
  - unfold bind at 1. cbn [get_freq]. rewrite E1. reflexivity.
  - destruct ((YODA_MIN <=? freq w) && (freq w <=? YODA_MAX)) eqn:E2.
    + unfold bind at 1. cbn [get_freq]. rewrite E1, E2. reflexivity.
    + unfold bind at 1. cbn [get_freq]. rewrite E1, E2. reflexivity.
Qed.

Lemma loop_body_freq_range w : 0 <= freq (exec loop_body w) <= 65535.
Proof.
  rewrite loop_body_freq.
  destruct (gate_window_range w) as [Hh Hl]. unfold counter16. lia.
Qed.

(** C2: the branch that the code of lines 368-385 runs is a function of the
    count alone: a count from 300 to 600 runs the ignition branch, a count
    from 4500 to 5500 the link branch, every other count the idle branch
    (so 0, 601, 4499, 5501 and 65535), the four bounds being inside their
    bands; and the counts that [main] classifies are 16-bit values. *)
Theorem classify_bands n w :
  freq w = n ->
  (300 <= n <= 600 ->
   classify n = IGNITION /\
   drive_outputs w =
     (wr_bit LED_IGNITION ON ;; wr_bit LED_LINK OFF ;; wr_bit MOS_GATE ON) w)
  /\
  (4500 <= n <= 5500 ->
   classify n = LINK_OK /\
   drive_outputs w =
     (wr_bit LED_IGNITION OFF ;;
      (b <- rd_bit LED_LINK ;; wr_bit LED_LINK (Z.lnot b)) ;;
      wr_bit MOS_GATE OFF) w) /\
  (~ 300 <= n <= 600 -> ~ 4500 <= n <= 5500 ->
   classify n = IDLE /\
   drive_outputs w =
     (wr_bit LED_IGNITION OFF ;; wr_bit MOS_GATE OFF ;; wr_bit LED_LINK ON) w)
  /\
  (In n [0; 601; 4499; 5501; 65535] ->
   drive_outputs w =
     (wr_bit LED_IGNITION OFF ;; wr_bit MOS_GATE OFF ;; wr_bit LED_LINK ON) w)
  /\
  (In n [300; 600] ->
   drive_outputs w =
     (wr_bit LED_IGNITION ON ;; wr_bit LED_LINK OFF ;; wr_bit MOS_GATE ON) w)
  /\
  (In n [4500; 5500] ->
   drive_outputs w =
     (wr_bit LED_IGNITION OFF ;;
      (b <- rd_bit LED_LINK ;; wr_bit LED_LINK (Z.lnot b)) ;;
      wr_bit MOS_GATE OFF) w) /\
  (forall w0 k, 0 <= freq (exec (main (S k)) w0) <= 65535).
Proof.
  intro Hn. pose proof (drive_outputs_branch w) as Hb. rewrite Hn in Hb.
  assert (Hi : 300 <= n <= 600 -> classify n = IGNITION)
    by apply classify_ignition.
  assert (Hl : 4500 <= n <= 5500 -> classify n = LINK_OK)
    by apply classify_link_ok.
  assert (Hd : ~ 300 <= n <= 600 -> ~ 4500 <= n <= 5500 -> classify n = IDLE)
    by (intros H1 H2; now apply classify_idle).
  split; [|split; [|split; [|split; [|split; [|split]]]]].
  - intro H. split; [now apply Hi|]. now rewrite (Hi H) in Hb.
  - intro H. split; [now apply Hl|]. now rewrite (Hl H) in Hb.
  - intros H1 H2. split; [now apply Hd|]. now rewrite (Hd H1 H2) in Hb.
  - intro H. rewrite Hd in Hb; [exact Hb | |];
      cbn [In] in H; lia.
  - intro H. rewrite Hi in Hb; [exact Hb|]. cbn [In] in H; lia.
  - intro H. rewrite Hl in Hb; [exact Hb|]. cbn [In] in H; lia.
  - intros w0 k. rewrite exec_main_S. apply loop_body_freq_range.
Qed.

Lemma classify_bands_witness :
  let w := mkWorld (fun _ => 255) 450 [] in
  freq w = 450 /\
  300 <= 450 <= 600 /\
  classify 450 = IGNITION /\
  drive_outputs w =
    (wr_bit LED_IGNITION ON ;; wr_bit LED_LINK OFF ;; wr_bit MOS_GATE ON) w.
Proof.
  cbv zeta.
  assert (H : 300 <= 450 <= 600) by lia.
  split; [reflexivity | split; [exact H|]].
  exact (proj1 (classify_bands 450 (mkWorld (fun _ => 255) 450 []) eq_refl) H).
Defined.

(** C1: after every turn of the loop the MOS gate is on exactly when the
    count read in that turn is in the ignition band; the link and idle
    branches leave it off. *)
Theorem mos_gate_iff_ignition w0 n :
  let w' := exec (main (S n)) w0 in
  (mosGate (regs w') = true <-> classify (freq w') = IGNITION) /\
  (classify (freq w') = LINK_OK -> mosGate (regs w') = false) /\
  (classify (freq w') = IDLE -> mosGate (regs w') = false).
Proof.
  cbv zeta. rewrite exec_main_S.
  pose proof (loop_body_outputs (exec (main n) w0)) as H.
  unfold outputs in H.
  destruct (classify (freq (exec loop_body (exec (main n) w0))));
    apply triple_eq in H; destruct H as (_ & _ & H); rewrite H;
    (split; [split; intro; congruence | split; intro; congruence]).
Qed.

(** C3: whatever the outputs were, a turn of the loop leaves
    (ignition led, link led, MOS gate) at (on, off, on) in the ignition
    band, at (off, the opposite of the link led before, off) in the link
    band and at (off, on, off) outside both; a count of 450 gives the
    first, a count of 0 the last. *)
Theorem outputs_table w :
  let w' := exec loop_body w in
  outputs (regs w') =
    match classify (freq w') with
    | IGNITION => (true, false, true)
    | LINK_OK => (false, negb (linkLed (regs w)), false)
    | IDLE => (false, true, false)
    end /\
  (freq w' = 450 -> outputs (regs w') = (true, false, true)) /\
  (freq w' = 0 -> outputs (regs w') = (false, true, false)).
Proof.
  cbv zeta. pose proof (loop_body_outputs w) as H.
  split; [exact H|]. split; intro Hf; rewrite Hf in H; exact H.
Qed.

Lemma alternate_even n : alternate true n = map Nat.even (seq 0 n).
Proof.
  assert (H : forall k, alternate (Nat.even k) n = map Nat.even (seq k n)).
  { induction n as [|n IH]; intro k; [reflexivity|].
    cbn [alternate seq map]. f_equal. rewrite <- IH.
    f_equal. rewrite Nat.even_succ, <- Nat.negb_even. reflexivity. }
  apply (H 0%nat).
Qed.

(** C4: from a link led that is off, [N] turns in a row that find the link
    frequency leave the link led on, off, on, off, ... *)
Theorem link_led_alternates N w :
  linkLed (regs w) = false ->
  (forall k, (k < N)%nat -> classify (freq (exec (cycles (S k)) w)) = LINK_OK) ->
  link_history N w = alternate true N.
Proof.
  intros Hw Hlink. rewrite alternate_even. unfold link_history.
  apply map_ext_in. intros k Hk. apply in_seq in Hk.
  assert (Hk' : (k < N)%nat) by lia. clear Hk.
  assert (Hprev : linkLed (regs (exec (cycles k) w)) = negb (Nat.even k)).
  { induction k as [|k IH]; [exact Hw|].
    rewrite exec_cycles_S.
    pose proof (loop_body_outputs (exec (cycles k) w)) as H.
    rewrite <- exec_cycles_S, Hlink in H by lia. unfold outputs in H.
    apply triple_eq in H. destruct H as (_ & H & _). rewrite <- exec_cycles_S, H, IH by lia.
    rewrite Nat.even_succ, <- Nat.negb_even. reflexivity. }
  rewrite exec_cycles_S.
  pose proof (loop_body_outputs (exec (cycles k) w)) as H.
  rewrite <- exec_cycles_S, Hlink in H by lia. unfold outputs in H.
  apply triple_eq in H. destruct H as (_ & H & _). rewrite <- exec_cycles_S, H, Hprev.
  apply negb_involutive.
Qed.

Lemma holds_seq {A B} (m : M A) (k : M B) O (I : world -> Prop) Q w :
  holds m O (fun _ => I) w -> (forall w', I w' -> holds k O Q w') ->
  holds (m ;; k) O Q w.
Proof.
  intros Hm Hk. apply holds_bind. eapply holds_weaken; [exact Hm|].
  intros a w' Hw'. now apply Hk.
Qed.

Lemma holds_trace {A} (m : M A) O Q w : holds m O Q w -> Forall O (trace m w).
Proof. now intros [H _]. Qed.

Lemma holds_post {A} (m : M A) O (Q : A -> world -> Prop) w :
  holds m O Q w -> Q (result m w) (exec m w).
Proof. now intros [_ H]. Qed.

Lemma holds_if {A} (c : bool) (m1 m2 : M A) O Q w :
  (c = true -> holds m1 O Q w) -> (c = false -> holds m2 O Q w) ->
  holds (if c then m1 else m2) O Q w.
Proof. destruct c; intros H1 H2; [now apply H1 | now apply H2]. Qed.

(** An observation of another access than the one the predicate guards. *)
Ltac obs_skip :=
  idtac;
  let H := fresh "H" in
  unfold opens_at_zero, reads_stopped; cbn [fst snd]; intro H; exfalso;
  cbv [LED_IGNITION LED_LINK MOS_GATE INPUT_DISABLE TMR1ON ON OFF] in H;
  first [ discriminate H
        | destruct H as [H|H]; discriminate H
        | congruence ].

(** Symbolic execution of a block, [tac] being tried on every observation. *)
Ltac hwalk tac :=
  repeat (cbv beta;
    lazymatch goal with
    | |- holds (bind _ _) _ _ _ => apply holds_bind
    | |- holds (if _ then _ else _) _ _ _ => apply holds_if; intro
    | |- holds (wr _ _) _ _ _ => apply holds_wr; [try tac|]
    | |- holds (wr_bit _ _) _ _ _ => apply holds_wr_bit; [try tac|]
    | |- holds (rd _) _ _ _ => apply holds_rd; [try tac|]
    | |- holds (rd_bit _) _ _ _ => apply holds_rd_bit; [try tac|]
    | |- holds (__delay_ms _) _ _ _ => apply holds_delay; [try tac|]
    | |- holds (delayerMs _) _ _ _ =>
        apply holds_delayerMs; [intro; try tac|]
    | |- holds get_freq _ _ _ => apply holds_get_freq
    | |- holds (set_freq _) _ _ _ => apply holds_set_freq
    | |- holds (ret _) _ _ _ => apply holds_ret
    end).

(** ** The counter is cleared before every window *)

Lemma init_stops_counter O w :
  (forall r v rs, O (Wr r v, rs)) ->
  holds init O (fun _ w' => pin_of (regs w') TMR1ON = false) w.
Proof.
  intro HO. unfold init. hwalk ltac:(apply HO). now pins.
Qed.

Lemma blink_keeps_counter_stopped O w :
  (forall p b rs, fst p = LATC -> O (WrBit p b, rs)) ->
  (forall ms rs, O (DelayMs ms, rs)) ->
  pin_of (regs w) TMR1ON = false ->
  holds blink O (fun _ w' => pin_of (regs w') TMR1ON = false) w.
Proof.
  intros HW HD Hw. unfold blink.
  hwalk ltac:(first [apply HW; reflexivity | apply HD]).
  now pins.
Qed.

Lemma startup_keeps_counter_stopped O w :
  (forall p b rs, fst p = LATC -> O (WrBit p b, rs)) ->
  (forall ms rs, O (DelayMs ms, rs)) ->
  pin_of (regs w) TMR1ON = false ->
  holds startup O (fun _ w' => pin_of (regs w') TMR1ON = false) w.
Proof.
  intros HW HD Hw. unfold startup.
  apply holds_for with (I := fun w' => pin_of (regs w') TMR1ON = false);
    [|exact Hw].
  intros w' Hw'. now apply blink_keeps_counter_stopped.
Qed.

Lemma prelude_idle O w :
  (forall r v rs, O (Wr r v, rs)) ->
  (forall p b rs, fst p = LATA -> O (WrBit p b, rs)) ->
  pin_of (regs w) TMR1ON = false ->
  holds prelude O (fun _ => counter_idle) w.
Proof.
  intros HO HW Hw. unfold prelude.
  hwalk ltac:(first [apply HO | apply HW; reflexivity]).
  assert (Hc := clear_counter_idle w Hw). revert Hc. unbind.
  set (w2 := exec (wr TMR1L 0) _). intros (Hoff & HH & HL).
  unfold counter_idle. split; [now pins|].
  rewrite regs_wr_bit, !store_bit_other by discriminate.
  now rewrite tick_off.
Qed.

(** Every access of [main] before the loop leaves TMR1ON alone or clear. *)
Lemma loop_entry_idle O w0 :
  (forall r v rs, O (Wr r v, rs)) ->
  (forall p b rs, fst p = LATC \/ fst p = LATA -> O (WrBit p b, rs)) ->
  (forall ms rs, O (DelayMs ms, rs)) ->
  holds (init ;; startup ;; prelude) O (fun _ => counter_idle) w0.
Proof.
  intros HO HW HD.
  eapply holds_seq; [now apply init_stops_counter|]. intros w1 H1.
  eapply holds_seq.
  - apply startup_keeps_counter_stopped; [intros; apply HW; now left | exact HD | exact H1].
  - intros w2 H2. apply prelude_idle; [exact HO | intros; apply HW; now right | exact H2].
Qed.

Lemma trace_loop_body w :
  trace loop_body w =
  trace gate_window w ++
  trace read_count (exec gate_window w) ++
  trace drive_outputs (exec read_count (exec gate_window w)) ++
  trace reset_counter
    (exec drive_outputs (exec read_count (exec gate_window w))).
Proof.
  unfold loop_body.
  rewrite (trace_bind gate_window). cbv beta.
  rewrite (trace_bind read_count). cbv beta.
  rewrite (trace_bind drive_outputs). reflexivity.
Qed.

Lemma Forall_trace_drive_outputs O w :
  Forall O (trace (wr_bit LED_IGNITION ON ;; wr_bit LED_LINK OFF ;;
                   wr_bit MOS_GATE ON) w) ->
  Forall O (trace (wr_bit LED_IGNITION OFF ;;
                   (b <- rd_bit LED_LINK ;; wr_bit LED_LINK (Z.lnot b)) ;;
                   wr_bit MOS_GATE OFF) w) ->
  Forall O (trace (wr_bit LED_IGNITION OFF ;; wr_bit MOS_GATE OFF ;;
                   wr_bit LED_LINK ON) w) ->
  Forall O (trace drive_outputs w).
Proof.
  intros H1 H2 H3. rewrite trace_drive_outputs.
  now destruct (classify (freq w)).
Qed.

(** *** Windows open on a cleared counter *)

Lemma gate_window_opens_at_zero w :
  counter_idle w -> Forall opens_at_zero (trace gate_window w).
Proof.
  intros (Hoff & HH & HL).
  apply (holds_trace gate_window _ (fun _ _ => True)).
  unfold gate_window. hwalk obs_skip; [|exact I].
  unfold opens_at_zero. cbn [fst snd]. intros _.
  rewrite regs_wr_bit, !store_bit_other by discriminate.
  now rewrite tick_off.
Qed.

Lemma read_count_opens_at_zero w : Forall opens_at_zero (trace read_count w).
Proof.
  apply (holds_trace read_count _ (fun _ _ => True)).
  unfold read_count. hwalk obs_skip. exact I.
Qed.

Lemma drive_outputs_opens_at_zero w :
  Forall opens_at_zero (trace drive_outputs w).
Proof.
  apply Forall_trace_drive_outputs;
    match goal with
    | |- Forall _ (trace ?m _) => apply (holds_trace m _ (fun _ _ => True))
    end; hwalk obs_skip; exact I.
Qed.

Lemma reset_counter_opens_at_zero w :
  Forall opens_at_zero (trace reset_counter w).
Proof.
  apply (holds_trace reset_counter _ (fun _ _ => True)).
  unfold reset_counter. hwalk obs_skip. exact I.
Qed.

Lemma loop_body_opens_at_zero w :
  counter_idle w ->
  holds loop_body opens_at_zero (fun _ => counter_idle) w.
Proof.
  intro Hw. split; [|apply loop_body_idle].
  rewrite trace_loop_body.
  apply Forall_app; split; [|apply Forall_app; split; [|apply Forall_app; split]].
  - now apply gate_window_opens_at_zero.
  - apply read_count_opens_at_zero.
  - apply drive_outputs_opens_at_zero.
  - apply reset_counter_opens_at_zero.
Qed.

Lemma main_opens_at_zero n w0 :
  holds (main n) opens_at_zero (fun _ => counter_idle) w0.
Proof.
  unfold main.
  assert (H : holds (init ;; startup ;; prelude) opens_at_zero
                    (fun _ => counter_idle) w0).
  { apply loop_entry_idle; intros; try obs_skip.
    unfold opens_at_zero; cbn [fst snd]; intro Hp. exfalso.
    injection Hp as Hp _. rewrite Hp in H. cbn in H. destruct H; discriminate. }
  destruct H as [Ht Hq]. split.
  - rewrite (trace_bind init). cbv beta.
    rewrite (trace_bind startup). cbv beta.
    rewrite (trace_bind prelude). cbv beta.
    rewrite (trace_bind init) in Ht. cbv beta in Ht.
    rewrite (trace_bind startup) in Ht. cbv beta in Ht.
    rewrite !app_assoc. apply Forall_app. split.
    + rewrite <- !app_assoc. exact Ht.
    + apply (holds_trace (cycles n) _ (fun _ => counter_idle)).
      apply holds_for; [apply loop_body_opens_at_zero|].
      revert Hq. unbind. trivial.
  - unbind. revert Hq. unbind. intro Hq.
    apply (holds_post (cycles n) opens_at_zero (fun _ => counter_idle)).
    apply holds_for; [apply loop_body_opens_at_zero | exact Hq].
Qed.

(** C6: every access of [main] that sets TMR1ON finds TMR1H and TMR1L at
    zero; at the head of every turn the counter is stopped and cleared; and
    the count read in a turn is the number of pulses of that turn's window
    (modulo 2^16), whatever the turns before counted. *)
Theorem counter_cleared_before_each_window w0 n :
  Forall opens_at_zero (trace (main n) w0) /\
  counter_idle (exec (main n) w0) /\
  freq (exec (main (S n)) w0) =
    window_pulses (input (exec (main n) w0)) mod 65536.
Proof.
  destruct (main_opens_at_zero n w0) as [Ht Hq].
  split; [exact Ht | split; [exact Hq|]].
  rewrite exec_main_S. now apply loop_body_count.
Qed.

(** ** The count is read from a stopped counter *)

Lemma gate_window_reads_stopped w : Forall reads_stopped (trace gate_window w).
Proof.
  apply (holds_trace gate_window _ (fun _ _ => True)).
  unfold gate_window. hwalk obs_skip. exact I.
Qed.

Lemma read_count_reads_stopped w :
  pin_of (regs w) TMR1ON = false -> Forall reads_stopped (trace read_count w).
Proof.
  intro Hoff.
  apply (holds_trace read_count _ (fun _ _ => True)).
  unfold read_count.
  hwalk ltac:(unfold reads_stopped; cbn [fst snd]; intros _; now pins).
  exact I.
Qed.

Lemma drive_outputs_reads_stopped w :
  Forall reads_stopped (trace drive_outputs w).
Proof.
  apply Forall_trace_drive_outputs;
    match goal with
    | |- Forall _ (trace ?m _) => apply (holds_trace m _ (fun _ _ => True))
    end; hwalk obs_skip; exact I.
Qed.

Lemma reset_counter_reads_stopped w :
  Forall reads_stopped (trace reset_counter w).
Proof.
  apply (holds_trace reset_counter _ (fun _ _ => True)).
  unfold reset_counter. hwalk obs_skip. exact I.
Qed.

Lemma loop_body_reads_stopped w :
  holds loop_body reads_stopped (fun _ _ => True) w.
Proof.
  split; [|exact I]. rewrite trace_loop_body.
  apply Forall_app; split; [|apply Forall_app; split; [|apply Forall_app; split]].
  - apply gate_window_reads_stopped.
  - apply read_count_reads_stopped, gate_window_stopped.
  - apply drive_outputs_reads_stopped.
  - apply reset_counter_reads_stopped.
Qed.

Lemma main_reads_stopped n w0 : Forall reads_stopped (trace (main n) w0).
Proof.
  unfold main.
  assert (H : holds (init ;; startup ;; prelude) reads_stopped
                    (fun _ => counter_idle) w0)
    by (apply loop_entry_idle; intros; obs_skip).
  destruct H as [Ht _].
  rewrite (trace_bind init). cbv beta.
  rewrite (trace_bind startup). cbv beta.
  rewrite (trace_bind prelude). cbv beta.
  rewrite (trace_bind init) in Ht. cbv beta in Ht.
  rewrite (trace_bind startup) in Ht. cbv beta in Ht.
  rewrite !app_assoc. apply Forall_app. split.
  - rewrite <- !app_assoc. exact Ht.
  - apply (holds_trace (cycles n) _ (fun _ _ => True)).
    apply holds_for with (I := fun _ => True); [|exact I].
    intros w _. apply loop_body_reads_stopped.
Qed.

Lemma map_const_seq {A} (c : A) k n : map (fun _ => c) (seq k n) = repeat c n.
Proof.
  revert k; induction n as [|n IH]; intro k; [reflexivity|].
  cbn [seq map repeat]. now rewrite IH.
Qed.

Lemma events_delayerMs d w :
  map fst (trace (delayerMs d) w) = repeat (DelayMs 1) (Z.to_nat d).
Proof.
  unfold delayerMs. rewrite trace_delays, map_map. cbn [fst].
  apply map_const_seq.
Qed.

(** The accesses of the measurement, in order. *)
Lemma events_measurement w :
  map fst (trace (gate_window ;; read_count) w) =
  [WrBit TMR1ON true] ++ repeat (DelayMs 1) (Z.to_nat 1000) ++
  [WrBit TMR1ON false; Rd TMR1H; Rd TMR1L].
Proof.
  rewrite (trace_bind gate_window). cbv beta. unfold gate_window.
  rewrite (trace_bind (wr_bit TMR1ON ON)). cbv beta.
  rewrite (trace_bind (delayerMs 1000)). cbv beta.
  rewrite !map_app, events_delayerMs. reflexivity.
Qed.

(** C7: every read of TMR1H or TMR1L in [main] finds TMR1ON clear; in a
    turn the accesses are, in order, TMR1ON set, the 1000 delays, TMR1ON
    cleared, the two reads; and the count read is the one the counter held
    when it was stopped. *)
Theorem count_read_after_window_closed w0 n :
  Forall reads_stopped (trace (main n) w0) /\
  map fst (trace (gate_window ;; read_count) (exec (main n) w0)) =
    [WrBit TMR1ON true] ++ repeat (DelayMs 1) (Z.to_nat 1000) ++
    [WrBit TMR1ON false; Rd TMR1H; Rd TMR1L] /\
  freq (exec (main (S n)) w0) =
    counter16 (regs (exec gate_window (exec (main n) w0))).
Proof.
  split; [apply main_reads_stopped | split].
  - apply events_measurement.
  - rewrite exec_main_S. apply loop_body_freq.
Qed.

(** ** The MOS gate before the first ignition *)

Ltac obs_mos Hw :=
  idtac; unfold mos_off, mosGate; cbn [snd]; pins;
  first [exact Hw | reflexivity].

Lemma init_mos_off w :
  mosGate (regs w) = false ->
  holds init mos_off (fun _ w' => mosGate (regs w') = false) w.
Proof.
  intro Hw. unfold init.
  hwalk ltac:(obs_mos Hw).
  unfold mosGate. pins. reflexivity.
Qed.

Lemma init_clears_latches w :
  regs (exec init w) LATC = 0 /\ regs (exec init w) LATA = 0.
Proof.
  unfold init. unbind.
  split; repeat (rewrite regs_wr, store_other by discriminate;
                 rewrite tick_other by reflexivity);
    rewrite regs_wr; reflexivity.
Qed.

Lemma blink_mos_off w :
  mosGate (regs w) = false ->
  holds blink mos_off (fun _ w' => mosGate (regs w') = false) w.
Proof.
  intro Hw. unfold blink. hwalk ltac:(obs_mos Hw).
  unfold mosGate. pins. exact Hw.
Qed.

Lemma startup_mos_off w :
  mosGate (regs w) = false ->
  holds startup mos_off (fun _ w' => mosGate (regs w') = false) w.
Proof.
  intro Hw. unfold startup.
  apply holds_for with (I := fun w' => mosGate (regs w') = false); [|exact Hw].
  intros w' Hw'. now apply blink_mos_off.
Qed.

Lemma prelude_mos_off w :
  mosGate (regs w) = false ->
  holds prelude mos_off (fun _ w' => mosGate (regs w') = false) w.
Proof.
  intro Hw. unfold prelude. hwalk ltac:(obs_mos Hw).
  unfold mosGate. pins. exact Hw.
Qed.

Lemma gate_window_mos_off w :
  mosGate (regs w) = false ->
  holds gate_window mos_off (fun _ w' => mosGate (regs w') = false) w.
Proof.
  intro Hw. unfold gate_window. hwalk ltac:(obs_mos Hw).
  unfold mosGate. pins. exact Hw.
Qed.

Lemma read_count_mos_off w :
  mosGate (regs w) = false ->
  holds read_count mos_off (fun _ w' => mosGate (regs w') = false) w.
Proof.
  intro Hw. unfold read_count. hwalk ltac:(obs_mos Hw).
  unfold mosGate. pins. exact Hw.
Qed.

Lemma reset_counter_mos_off w :
  mosGate (regs w) = false ->
  holds reset_counter mos_off (fun _ w' => mosGate (regs w') = false) w.
Proof.
  intro Hw. unfold reset_counter. hwalk ltac:(obs_mos Hw).
  unfold mosGate. pins. exact Hw.
Qed.

(** Outside the ignition band the branches keep the gate off. *)
Lemma drive_outputs_mos_off w :
  mosGate (regs w) = false -> classify (freq w) <> IGNITION ->
  holds drive_outputs mos_off (fun _ w' => mosGate (regs w') = false) w.
Proof.
  intros Hw Hband. unfold holds.
  rewrite trace_drive_outputs, drive_outputs_exec.
  destruct (classify (freq w)); [contradiction| |].
  - match goal with
    | |- Forall _ (trace ?m _) /\ _ =>
        assert (H : holds m mos_off (fun _ w' => mosGate (regs w') = false) w)
    end.
    { hwalk ltac:(obs_mos Hw). unfold mosGate. pins. reflexivity. }
    destruct H as [Ht Hq]. split; assumption.
  - match goal with
    | |- Forall _ (trace ?m _) /\ _ =>
        assert (H : holds m mos_off (fun _ w' => mosGate (regs w') = false) w)
    end.
    { hwalk ltac:(obs_mos Hw). unfold mosGate. pins. reflexivity. }
    destruct H as [Ht Hq]. split; assumption.
Qed.

Lemma loop_body_freq_read w :
  freq (exec loop_body w) = freq (exec read_count (exec gate_window w)).
Proof.
  rewrite loop_body_exec, reset_counter_freq, drive_outputs_freq. reflexivity.
Qed.

Lemma loop_body_mos_off w :
  mosGate (regs w) = false -> classify (freq (exec loop_body w)) <> IGNITION ->
  holds loop_body mos_off (fun _ w' => mosGate (regs w') = false) w.
Proof.
  intros Hw Hband. rewrite loop_body_freq_read in Hband.
  destruct (gate_window_mos_off w Hw) as [T1 Q1].
  destruct (read_count_mos_off _ Q1) as [T2 Q2].
  destruct (drive_outputs_mos_off _ Q2 Hband) as [T3 Q3].
  destruct (reset_counter_mos_off _ Q3) as [T4 Q4].
  split.
  - rewrite trace_loop_body.
    apply Forall_app; split; [|apply Forall_app; split; [|apply Forall_app; split]];
      assumption.
  - rewrite loop_body_exec. exact Q4.
Qed.

Lemma cycles_mos_off n w :
  mosGate (regs w) = false ->
  (forall k, (k < n)%nat ->
             classify (freq (exec (cycles (S k)) w)) <> IGNITION) ->
  holds (cycles n) mos_off (fun _ w' => mosGate (regs w') = false) w.
Proof.
  intros Hw. induction n as [|n IH]; intro Hband.
  - now apply holds_ret.
  - destruct IH as [Ht Hq]; [intros k Hk; apply Hband; lia|].
    assert (Hn : classify (freq (exec loop_body (exec (cycles n) w))) <> IGNITION).
    { rewrite <- exec_cycles_S. apply Hband. lia. }
    destruct (loop_body_mos_off _ Hq Hn) as [Ht' Hq'].
    split.
    + unfold cycles. rewrite trace_for_snoc. apply Forall_app. split; assumption.
    + rewrite exec_cycles_S. exact Hq'.
Qed.

Lemma mosGate_of_cleared_latch rs : rs LATC = 0 -> mosGate rs = false.
Proof. intro H. unfold mosGate, pin_of. cbn [fst snd MOS_GATE]. now rewrite H. Qed.

Lemma trace_main n w0 :
  trace (main n) w0 =
  trace init w0 ++ trace startup (exec init w0) ++
  trace prelude (exec startup (exec init w0)) ++
  trace (cycles n) (loop_entry w0).
Proof.
  unfold main.
  rewrite (trace_bind init). cbv beta.
  rewrite (trace_bind startup). cbv beta.
  rewrite (trace_bind prelude). cbv beta.
  now rewrite loop_entry_exec.
Qed.

(** From a state with the gate off, the rest of [main] keeps it off as long
    as no turn of the loop finds the ignition frequency, and through the
    measurement of the turn that follows. *)
Lemma after_init_mos_off n w0 :
  mosGate (regs (exec init w0)) = false ->
  (forall k, (k < n)%nat ->
     classify (freq (exec (main (S k)) w0)) <> IGNITION) ->
  Forall mos_off (trace (startup ;; prelude ;; cycles n) (exec init w0)) /\
  Forall mos_off (trace (startup ;; prelude ;; cycles n ;;
                         gate_window ;; read_count) (exec init w0)).
Proof.
  intros H1 Hband.
  destruct (startup_mos_off _ H1) as [T2 Q2].
  destruct (prelude_mos_off _ Q2) as [T3 Q3].
  rewrite <- loop_entry_exec in Q3.
  assert (Hband' : forall k, (k < n)%nat ->
            classify (freq (exec (cycles (S k)) (loop_entry w0))) <> IGNITION).
  { intros k Hk. rewrite <- exec_main. now apply Hband. }
  destruct (cycles_mos_off n _ Q3 Hband') as [T4 Q4].
  destruct (gate_window_mos_off _ Q4) as [T5 Q5].
  destruct (read_count_mos_off _ Q5) as [T6 _].
  rewrite (trace_bind startup). cbv beta.
  rewrite (trace_bind prelude). cbv beta.
  rewrite <- loop_entry_exec.
  split.
  - apply Forall_app; split; [|apply Forall_app; split]; assumption.
  - rewrite (trace_bind startup). cbv beta.
    rewrite (trace_bind prelude). cbv beta.
    rewrite (trace_bind (cycles n)). cbv beta.
    rewrite (trace_bind gate_window). cbv beta.
    rewrite <- loop_entry_exec.
    apply Forall_app; split;
      [|apply Forall_app; split;
        [|apply Forall_app; split; [|apply Forall_app; split]]];
      assumption.
Qed.

(** ** The MOS gate from the clearing of the latch *)

Lemma skipn_trace_wr n r v (k : unit -> M unit) w :
  skipn (S n) (trace (bind (wr r v) k) w) =
  skipn n (trace (k tt) (exec (wr r v) w)).
Proof. rewrite trace_bind. reflexivity. Qed.

Lemma nth_trace_wr n r v (k : unit -> M unit) w :
  nth_error (map fst (trace (bind (wr r v) k) w)) (S n) =
  nth_error (map fst (trace (k tt) (exec (wr r v) w))) n.
Proof. rewrite trace_bind. reflexivity. Qed.

Lemma length_trace_init w : length (trace init w) = 40%nat.
Proof. reflexivity. Qed.

(** The tenth access of [init] is the write that clears the latch of
    port C; the MOS gate is off from there to the end of [init]. *)
Lemma init_clears_gate w :
  nth_error (map fst (trace init w)) 9 = Some (Wr PORTC 0) /\
  Forall mos_off (skipn 9 (trace init w)).
Proof.
  unfold init. split.
  - do 9 (rewrite nth_trace_wr; cbv beta). reflexivity.
  - do 9 (rewrite skipn_trace_wr; cbv beta).
    match goal with |- Forall _ (skipn 0 (trace _ ?w9)) => generalize w9 end.
    intro w9. change (skipn 0 ?l) with l.
    match goal with
    | |- Forall _ (trace ?m _) => apply (holds_trace m _ (fun _ _ => True))
    end.
    hwalk ltac:(idtac; unfold mos_off, mosGate; cbn [snd]; pins; reflexivity).
    exact I.
Qed.

Lemma trace_main_and_measurement n w0 :
  trace (main n ;; gate_window ;; read_count) w0 =
  trace init w0 ++
  trace (startup ;; prelude ;; cycles n ;; gate_window ;; read_count)
        (exec init w0).
Proof.
  rewrite (trace_bind (main n)). cbv beta.
  rewrite trace_main.
  rewrite (trace_bind startup). cbv beta.
  rewrite (trace_bind prelude). cbv beta.
  rewrite (trace_bind (cycles n)). cbv beta.
  rewrite exec_main, loop_entry_exec, <- !app_assoc. reflexivity.
Qed.

(** C9, amended: the tenth access of [main] is the write of [init] that
    clears the latch of port C; from that access on the MOS gate is off
    after every access of [init], of the startup cycle, of the clearing of
    the counter, of the turns of the loop as long as none finds the
    ignition frequency, and of the measurement of the turn that follows;
    when the latch bit is already off at reset this holds from the first
    access. *)
Theorem mos_gate_off_from_latch_clear w0 n :
  (forall k, (k < n)%nat ->
     classify (freq (exec (main (S k)) w0)) <> IGNITION) ->
  nth_error (map fst (trace (main n ;; gate_window ;; read_count) w0)) 9 =
    Some (Wr PORTC 0) /\
  Forall mos_off
         (skipn 9 (trace (main n ;; gate_window ;; read_count) w0)) /\
  (mosGate (regs w0) = false ->
   Forall mos_off (trace (main n ;; gate_window ;; read_count) w0)).
Proof.
  intro Hband.
  destruct (init_clears_gate w0) as [Hn Hs].
  destruct (init_clears_latches w0) as [HC _].
  assert (H1 : mosGate (regs (exec init w0)) = false)
    by now apply mosGate_of_cleared_latch.
  destruct (after_init_mos_off n w0 H1 Hband) as [_ Hb].
  rewrite trace_main_and_measurement.
  split; [|split].
  - rewrite map_app, nth_error_app1; [exact Hn|].
    rewrite length_map, length_trace_init. lia.
  - rewrite skipn_app, length_trace_init. apply Forall_app. split; assumption.
  - intro H0. apply Forall_app. split; [|exact Hb].
    apply (holds_trace init _ _ _ (init_mos_off w0 H0)).
Qed.

Lemma Forall_hd {A} (P : A -> Prop) (l : list A) x :
  hd_error l = Some x -> Forall P l -> P x.
Proof. intros Hx H. destruct H; [discriminate | now injection Hx as <-]. Qed.

Lemma hd_error_app {A} (l l' : list A) x :
  hd_error l = Some x -> hd_error (l ++ l') = Some x.
Proof. destruct l; [discriminate | trivial]. Qed.

Lemma init_first_access w :
  hd_error (trace init w) =
  Some (Wr OSCCON 122, regs (exec (wr OSCCON 122) w)).
Proof. reflexivity. Qed.

(** The first access of [main] is the first write of [init]. *)
Lemma main_first_access n w :
  Forall mos_off (trace (main n) w) ->
  mosGate (regs (exec (wr OSCCON 122) w)) = false.
Proof.
  intro H.
  apply (Forall_hd mos_off (trace (main n) w)
           (Wr OSCCON 122, regs (exec (wr OSCCON 122) w))); [|exact H].
  rewrite trace_main. apply hd_error_app, init_first_access.
Qed.

(** At power-on the latch holds what it holds: with bit 5 set, the first
    access of [init] finds the gate bit on although no turn has found the
    ignition frequency. *)
Lemma mos_latch_on_before_init_clears_it :
  let w0 := power_on [] in
  (forall k, (k < 1)%nat ->
     classify (freq (exec (main (S k)) w0)) <> IGNITION) /\
  ~ Forall mos_off (trace (main 1) w0).
Proof.
  cbv zeta. split.
  - intros k Hk. assert (k = 0%nat) as -> by lia. vm_compute. discriminate.
  - intro H. apply main_first_access in H.
    vm_compute in H. discriminate H.
Qed.

(** ** The startup led cycle *)

Lemma waveform_app l1 l2 : waveform (l1 ++ l2) = waveform l1 ++ waveform l2.
Proof. apply flat_map_app. Qed.

Lemma waveform_delayerMs d w :
  waveform (trace (delayerMs d) w) =
  repeat (ignitionLed (regs w), linkLed (regs w)) (Z.to_nat d).
Proof.
  unfold delayerMs. rewrite trace_delays.
  generalize 0%nat as k. induction (Z.to_nat d) as [|n IH]; intro k.
  - reflexivity.
  - cbn [seq map]. unfold waveform in *. cbn [flat_map fst snd].
    rewrite IH. change (Z.to_nat 1) with 1%nat. cbn [repeat app].
    unfold ignitionLed, linkLed. pins. reflexivity.
Qed.

Lemma blink_run w :
  map fst (trace blink w) = blink_events /\
  waveform (trace blink w) = blink_wave /\
  ignitionLed (regs (exec blink w)) = false /\
  linkLed (regs (exec blink w)) = true.
Proof.
  unfold blink.
  rewrite (trace_bind (wr_bit LED_IGNITION ON)). cbv beta.
  rewrite (trace_bind (wr_bit LED_LINK OFF)). cbv beta.
  rewrite (trace_bind (delayerMs 50)). cbv beta.
  rewrite (trace_bind (wr_bit LED_IGNITION OFF)). cbv beta.
  rewrite (trace_bind (wr_bit LED_LINK ON)). cbv beta.
  split; [|split; [|split]].
  - rewrite !map_app, !events_delayerMs. reflexivity.
  - rewrite !waveform_app, !waveform_delayerMs.
    unfold ignitionLed, linkLed. pins. reflexivity.
  - unbind. rewrite exec_delayerMs. unfold ignitionLed. pins. reflexivity.
  - unbind. rewrite exec_delayerMs. unfold linkLed. pins. reflexivity.
Qed.

Lemma freq_seq {A B} (m : M A) (k : M B) :
  (forall w, freq (exec m w) = freq w) ->
  (forall w, freq (exec k w) = freq w) ->
  forall w, freq (exec (m ;; k) w) = freq w.
Proof. intros Hm Hk w. now rewrite exec_bind, Hk, Hm. Qed.

Lemma freq_delayerMs d w : freq (exec (delayerMs d) w) = freq w.
Proof. rewrite exec_delayerMs. apply iter_tick_freq. Qed.

(** What the led cycle leaves alone: [freq], the counter switch and the
    MOS gate. *)
Lemma blink_frame w :
  freq (exec blink w) = freq w /\
  pin_of (regs (exec blink w)) TMR1ON = pin_of (regs w) TMR1ON /\
  mosGate (regs (exec blink w)) = mosGate (regs w).
Proof.
  split; [|split].
  - revert w. unfold blink.
    repeat lazymatch goal with
           | |- forall w, freq (exec (bind _ _) w) = freq w => apply freq_seq
           | |- forall w, freq (exec (delayerMs _) w) = freq w =>
               intro; apply freq_delayerMs
           | |- forall w, freq (exec (wr_bit _ _) w) = freq w => reflexivity
           end.
  - unfold blink. unbind. rewrite !exec_delayerMs. pins. reflexivity.
  - unfold blink. unbind. rewrite !exec_delayerMs. unfold mosGate. pins.
    reflexivity.
Qed.

Lemma startup_frame w :
  freq (exec startup w) = freq w /\
  pin_of (regs (exec startup w)) TMR1ON = pin_of (regs w) TMR1ON /\
  mosGate (regs (exec startup w)) = mosGate (regs w).
Proof.
  unfold startup. generalize 5%nat as n. intro n. revert w.
  induction n as [|n IH]; intro w.
  - repeat split.
  - rewrite exec_for_S.
    destruct (IH (exec blink w)) as (E1 & E2 & E3).
    rewrite E1, E2, E3. apply blink_frame.
Qed.

Lemma startup_run n w :
  map fst (trace (for_ n blink) w) = concat (repeat blink_events n) /\
  waveform (trace (for_ n blink) w) = concat (repeat blink_wave n).
Proof.
  revert w; induction n as [|n IH]; intro w.
  - split; reflexivity.
  - rewrite trace_for_S.
    destruct (IH (exec blink w)) as [E1 E2].
    destruct (blink_run w) as (E3 & E4 & _).
    cbn [repeat concat]. split.
    + rewrite map_app. f_equal; assumption.
    + rewrite waveform_app. f_equal; assumption.
Qed.

Lemma startup_leds w :
  ignitionLed (regs (exec startup w)) = false /\
  linkLed (regs (exec startup w)) = true.
Proof.
  unfold startup. rewrite exec_for_snoc.
  destruct (blink_run (exec (for_ 4 blink) w)) as (_ & _ & H). exact H.
Qed.

(** C8: the startup cycle is five times: ignition led on, link led off,
    50 delays of 1 ms, ignition led off, link led on, 50 delays of 1 ms; it
    makes no other access, and leaves [freq], TMR1ON and the MOS gate as
    they were. *)
Theorem startup_blinks_five_times w :
  map fst (trace startup w) = concat (repeat blink_events 5) /\
  waveform (trace startup w) = concat (repeat blink_wave 5) /\
  freq (exec startup w) = freq w /\
  pin_of (regs (exec startup w)) TMR1ON = pin_of (regs w) TMR1ON /\
  mosGate (regs (exec startup w)) = mosGate (regs w).
Proof.
  destruct (startup_run 5 w) as [He Hw].
  split; [exact He | split; [exact Hw | apply startup_frame]].
Qed.

(** ** The leds at the entry of the loop *)

Lemma prelude_outputs w : outputs (regs (exec prelude w)) = outputs (regs w).
Proof.
  unfold prelude, outputs, ignitionLed, linkLed, mosGate. unbind.
  pins. reflexivity.
Qed.

Lemma loop_entry_leds w0 :
  ignitionLed (regs (loop_entry w0)) = false /\
  linkLed (regs (loop_entry w0)) = true.
Proof.
  rewrite loop_entry_exec.
  destruct (startup_leds (exec init w0)) as [Hi Hl].
  pose proof (prelude_outputs (exec startup (exec init w0))) as H.
  apply triple_eq in H. destruct H as (H1 & H2 & _).
  rewrite H1, H2. split; assumption.
Qed.

Lemma exec_main_0 w0 : exec (main 0) w0 = loop_entry w0.
Proof. now rewrite exec_main. Qed.

Lemma turn_link_led n w0 :
  linkLed (regs (exec (main (S n)) w0)) =
  match classify (freq (exec (main (S n)) w0)) with
  | IGNITION => false
  | LINK_OK => negb (linkLed (regs (exec (main n) w0)))
  | IDLE => true
  end.
Proof.
  pose proof (loop_body_outputs (exec (main n) w0)) as H.
  rewrite <- exec_main_S in H.
  destruct (classify (freq (exec (main (S n)) w0)));
    apply triple_eq in H; now destruct H as (_ & H & _).
Qed.

(** C10, amended: the loop is entered with the link led on and the
    ignition led off; the first turn that finds the link frequency turns
    the link led off when the turn just before it, if there is one, did not
    find the ignition frequency, and turns it on when it did. *)
Theorem first_link_ok_after_non_ignition w0 n :
  linkLed (regs (exec (main 0) w0)) = true /\
  ignitionLed (regs (exec (main 0) w0)) = false /\
  ((forall k, (k < n)%nat ->
      classify (freq (exec (main (S k)) w0)) <> LINK_OK) ->
   classify (freq (exec (main (S n)) w0)) = LINK_OK ->
   (forall m, n = S m ->
      classify (freq (exec (main n) w0)) <> IGNITION) ->
   linkLed (regs (exec (main (S n)) w0)) = false) /\
  (forall m, n = S m ->
     classify (freq (exec (main n) w0)) = IGNITION ->
     classify (freq (exec (main (S n)) w0)) = LINK_OK ->
     linkLed (regs (exec (main (S n)) w0)) = true).
Proof.
  rewrite exec_main_0.
  destruct (loop_entry_leds w0) as [Hi Hl].
  split; [exact Hl | split; [exact Hi | split]].
  - intros Hfirst Hlink Hprev.
    rewrite turn_link_led, Hlink.
    destruct n as [|m].
    + rewrite exec_main_0, Hl. reflexivity.
    + rewrite turn_link_led.
      specialize (Hfirst m (Nat.lt_succ_diag_r m)).
      specialize (Hprev m eq_refl).
      destruct (classify (freq (exec (main (S m)) w0)));
        [contradiction | contradiction | reflexivity].
  - intros m -> Hign Hlink.
    rewrite turn_link_led, Hlink, turn_link_led, Hign. reflexivity.
Qed.

Lemma first_link_ok_after_non_ignition_witness :
  let w0 := power_on (silence steps_before_loop ++ [0; 450]%N ++
                      silence 2017 ++ [5000]%N) in
  classify (freq (exec (main 1) w0)) = IGNITION /\
  (forall k, (k < 2)%nat ->
     classify (freq (exec (main (S k)) w0)) <> LINK_OK) /\
  classify (freq (exec (main 3) w0)) = LINK_OK /\
  (forall m, 2%nat = S m ->
     classify (freq (exec (main 2) w0)) <> IGNITION) /\
  linkLed (regs (exec (main 3) w0)) = false.
Proof.
  cbv zeta.
  set (w0 := power_on (silence steps_before_loop ++ [0; 450]%N ++
                       silence 2017 ++ [5000]%N)).
  assert (H0 : classify (freq (exec (main 1) w0)) = IGNITION)
    by (vm_compute; reflexivity).
  assert (H1 : forall k, (k < 2)%nat ->
            classify (freq (exec (main (S k)) w0)) <> LINK_OK).
  { intros k Hk.
    assert (k = 0 \/ k = 1)%nat as [-> | ->] by lia; vm_compute; discriminate. }
  assert (H2 : classify (freq (exec (main 3) w0)) = LINK_OK)
    by (vm_compute; reflexivity).
  assert (H3 : forall m, 2%nat = S m ->
            classify (freq (exec (main 2) w0)) <> IGNITION)
    by (intros m _; vm_compute; discriminate).
  split; [exact H0 | split; [exact H1 | split; [exact H2 | split; [exact H3|]]]].
  exact (proj1 (proj2 (proj2 (first_link_ok_after_non_ignition w0 2))) H1 H2 H3).
Defined.

(** After a turn that found the ignition frequency the link led is off, and
    the first link frequency turns it on. *)
Lemma first_link_ok_after_ignition_turns_led_on :
  ~ first_link_ok_turns_led_off.
Proof.
  intro H.
  specialize (H (power_on (two_windows 450 1009 5000)) 1%nat).
  assert (Hon : linkLed (regs (exec (main 2)
                  (power_on (two_windows 450 1009 5000)))) = true)
    by (vm_compute; reflexivity).
  rewrite H in Hon; [discriminate Hon | |].
  - intros k Hk. assert (k = 0%nat) as -> by lia. vm_compute. discriminate.
  - vm_compute. reflexivity.
Qed.

(** C5, amended: when two turns in a row read 299 and then 301, the first
    is idle and the second is an ignition: the MOS gate is off after the
    first and on after the second. *)
Theorem scenario_D_idle_then_ignition w :
  freq (exec (cycles 1) w) = 299 ->
  freq (exec (cycles 2) w) = 301 ->
  classify (freq (exec (cycles 1) w)) = IDLE /\
  classify (freq (exec (cycles 2) w)) = IGNITION /\
  mosGate (regs (exec (cycles 1) w)) = false /\
  mosGate (regs (exec (cycles 2) w)) = true.
Proof.
  intros H1 H2.
  pose proof (loop_body_outputs (exec (cycles 0) w)) as O1.
  pose proof (loop_body_outputs (exec (cycles 1) w)) as O2.
  rewrite <- exec_cycles_S in O1, O2. rewrite H1 in O1. rewrite H2 in O2.
  change (classify 299) with IDLE in O1.
  change (classify 301) with IGNITION in O2.
  apply triple_eq in O1. apply triple_eq in O2.
  rewrite H1, H2. repeat split; [apply O1 | apply O2].
Qed.

Lemma scenario_D_idle_then_ignition_witness :
  let w := loop_entry (power_on (two_windows 299 1009 301)) in
  freq (exec (cycles 1) w) = 299 /\
  freq (exec (cycles 2) w) = 301 /\
  classify (freq (exec (cycles 1) w)) = IDLE /\
  classify (freq (exec (cycles 2) w)) = IGNITION /\
  mosGate (regs (exec (cycles 1) w)) = false /\
  mosGate (regs (exec (cycles 2) w)) = true.
Proof.
  cbv zeta.
  assert (H1 : freq (exec (cycles 1)
                 (loop_entry (power_on (two_windows 299 1009 301)))) = 299)
    by (vm_compute; reflexivity).
  assert (H2 : freq (exec (cycles 2)
                 (loop_entry (power_on (two_windows 299 1009 301)))) = 301)
    by (vm_compute; reflexivity).
  split; [exact H1 | split; [exact H2|]].
  exact (scenario_D_idle_then_ignition _ H1 H2).
Defined.

(** With 299 and then 301 pulses, the second turn is not idle. *)
Lemma scenario_D_second_turn_not_idle :
  let w := loop_entry (power_on (two_windows 299 1009 301)) in
  freq (exec (cycles 1) w) = 299 /\
  freq (exec (cycles 2) w) = 301 /\
  ~ (classify (freq (exec (cycles 1) w)) = IDLE /\
     classify (freq (exec (cycles 2) w)) = IDLE).
Proof.
  cbv zeta. split; [vm_compute; reflexivity | split; [vm_compute; reflexivity|]].
  intros [_ H]. vm_compute in H. discriminate H.
Qed.

Lemma link_led_alternates_witness :
  let w := cleared ([0; 5000]%N ++ silence 1008 ++ [0; 5000]%N) in
  linkLed (regs w) = false /\
  (forall k, (k < 2)%nat ->
     classify (freq (exec (cycles (S k)) w)) = LINK_OK) /\
  link_history 2 w = alternate true 2.
Proof.
  cbv zeta.
  assert (H0 : linkLed (regs (cleared ([0; 5000]%N ++ silence 1008 ++
                                        [0; 5000]%N))) = false)
    by reflexivity.
  assert (H1 : forall k, (k < 2)%nat ->
            classify (freq (exec (cycles (S k))
              (cleared ([0; 5000]%N ++ silence 1008 ++ [0; 5000]%N))))
            = LINK_OK).
  { intros k Hk.
    assert (k = 0 \/ k = 1)%nat as [-> | ->] by lia; vm_compute; reflexivity. }
  split; [exact H0 | split; [exact H1|]].
  exact (link_led_alternates 2 _ H0 H1).
Defined.

Lemma mos_gate_off_from_latch_clear_witness :
  let w0 := power_on_gate_off [] in
  (forall k, (k < 1)%nat ->
     classify (freq (exec (main (S k)) w0)) <> IGNITION) /\
  mosGate (regs w0) = false /\
  nth_error (map fst (trace (main 1 ;; gate_window ;; read_count) w0)) 9 =
    Some (Wr PORTC 0) /\
  Forall mos_off
         (skipn 9 (trace (main 1 ;; gate_window ;; read_count) w0)) /\
  Forall mos_off (trace (main 1 ;; gate_window ;; read_count) w0).
Proof.
  cbv zeta.
  assert (H1 : forall k, (k < 1)%nat ->
            classify (freq (exec (main (S k)) (power_on_gate_off [])))
            <> IGNITION).
  { intros k Hk. assert (k = 0%nat) as -> by lia. vm_compute. discriminate. }
  assert (H0 : mosGate (regs (power_on_gate_off [])) = false) by reflexivity.
  split; [exact H1 | split; [exact H0|]].
  destruct (mos_gate_off_from_latch_clear (power_on_gate_off []) 1 H1)
    as (Ha & Hb & Hc).
  split; [exact Ha | split; [exact Hb | exact (Hc H0)]].
Defined.

(** ** A turn of the loop, from the pulses to the outputs *)

Lemma main_counter_idle n w0 : counter_idle (exec (main n) w0).
Proof. apply (holds_post (main n) _ _ _ (main_opens_at_zero n w0)). Qed.

(** X1: the count read in a turn is the number of pulses of its window
    modulo 2^16; the MOS gate is on after the turn exactly when that number
    is between 300 and 600, and the three outputs are those of its band. *)
Theorem gate_on_iff_pulses_in_band w0 n :
  let p := window_pulses (input (exec (main n) w0)) mod 65536 in
  let w' := exec (main (S n)) w0 in
  freq w' = p /\
  (mosGate (regs w') = true <-> 300 <= p <= 600) /\
  outputs (regs w') =
    match classify p with
    | IGNITION => (true, false, true)
    | LINK_OK => (false, negb (linkLed (regs (exec (main n) w0))), false)
    | IDLE => (false, true, false)
    end.
Proof.
  cbv zeta. rewrite exec_main_S.
  pose proof (loop_body_count _ (main_counter_idle n w0)) as Hf.
  pose proof (loop_body_outputs (exec (main n) w0)) as Ho.
  rewrite Hf in Ho. split; [exact Hf | split; [|exact Ho]].
  rewrite <- classify_ignition.
  destruct (classify (window_pulses (input (exec (main n) w0)) mod 65536));
    apply triple_eq in Ho; destruct Ho as (_ & _ & Ho); rewrite Ho;
    split; intro; congruence.
Qed.

(** ** The outputs during the measurement *)

Ltac obs_outputs Hw :=
  idtac; unfold outputs, ignitionLed, linkLed, mosGate in *; cbn [snd];
  pins; exact Hw.

Lemma gate_window_holds_outputs c w :
  outputs (regs w) = c ->
  holds gate_window (fun o => outputs (snd o) = c)
        (fun _ w' => outputs (regs w') = c) w.
Proof.
  intro Hw. unfold gate_window. hwalk ltac:(obs_outputs Hw). obs_outputs Hw.
Qed.

Lemma read_count_holds_outputs c w :
  outputs (regs w) = c ->
  holds read_count (fun o => outputs (snd o) = c)
        (fun _ w' => outputs (regs w') = c) w.
Proof.
  intro Hw. unfold read_count. hwalk ltac:(obs_outputs Hw). obs_outputs Hw.
Qed.

Lemma measurement_holds_outputs w :
  holds (gate_window ;; read_count)
        (fun o => outputs (snd o) = outputs (regs w))
        (fun _ w' => outputs (regs w') = outputs (regs w)) w.
Proof.
  eapply holds_seq.
  - now apply gate_window_holds_outputs.
  - intros w' Hw'. now apply read_count_holds_outputs.
Qed.

(** X2: during the window and the reading of the count, every access
    leaves the three outputs as the turn before set them; a gate that is on
    stays on until the next turn has classified its own count. *)
Theorem outputs_held_during_measurement w0 n :
  Forall (fun o => outputs (snd o) = outputs (regs (exec (main n) w0)))
         (trace (gate_window ;; read_count) (exec (main n) w0)) /\
  (mosGate (regs (exec (main n) w0)) = true ->
   Forall (fun o => mosGate (snd o) = true)
          (trace (gate_window ;; read_count) (exec (main n) w0))).
Proof.
  destruct (measurement_holds_outputs (exec (main n) w0)) as [Ht _].
  split; [exact Ht|].
  intro Hon. eapply Forall_impl; [|exact Ht].
  intros o Ho. apply triple_eq in Ho. destruct Ho as (_ & _ & Ho).
  now rewrite Ho.
Qed.

(** ** The configuration after [init] *)

Lemma configuration_not_timer r : configuration r = true -> is_tmr1 r = false.
Proof. destruct r; (discriminate || reflexivity). Qed.

Lemma same_config_tick c w :
  same_config c (regs w) -> same_config c (regs (tick w)).
Proof.
  intros [Hr Hk]. split.
  - intros r Hc. rewrite tick_other by now apply configuration_not_timer.
    now apply Hr.
  - intros k Hpos. rewrite tick_other by reflexivity. now apply Hk.
Qed.

Lemma same_config_iter c n w :
  same_config c (regs w) -> same_config c (regs (Nat.iter n tick w)).
Proof.
  intro H. induction n as [|n IH]; [exact H|].
  rewrite Nat.iter_succ. now apply same_config_tick.
Qed.

Lemma same_config_store_bit c p v rs :
  configuration (fst p) = false ->
  (fst p = T1CON -> snd p = 0) ->
  same_config c rs -> same_config c (store_bit p v rs).
Proof.
  intros Hp H0 [Hr Hk]. split.
  - intros r Hc. rewrite store_bit_other; [now apply Hr|].
    intros <-. congruence.
  - intros k Hpos. destruct (sfr_eq_dec (fst p) T1CON) as [E|E].
    + destruct p as [r j]. cbn [fst snd] in *. subst r. rewrite (H0 eq_refl).
      unfold store_bit, upd. cbn [fst snd sfr_beq].
      destruct (Z.testbit v 0).
      * rewrite Z.setbit_neq by lia. now apply Hk.
      * rewrite Z.clearbit_neq by lia. now apply Hk.
    + rewrite store_bit_other by exact E. now apply Hk.
Qed.

Lemma same_config_store c r v rs :
  configuration (latch_of r) = false -> latch_of r <> T1CON ->
  same_config c rs -> same_config c (store r v rs).
Proof.
  intros Hc HT [Hr Hk]. split.
  - intros r' Hc'. rewrite store_other; [now apply Hr|].
    intros <-. congruence.
  - intros k Hpos. rewrite store_other by exact HT. now apply Hk.
Qed.

(** The configuration, tracked back through the steps taken. *)
Ltac config Hw :=
  idtac; cbn [snd];
  repeat lazymatch goal with
    | |- same_config _ (regs (exec (wr_bit _ _) _)) =>
        rewrite regs_wr_bit;
        apply same_config_store_bit;
        [reflexivity | intro; first [reflexivity | discriminate]
        | apply same_config_tick]
    | |- same_config _ (regs (exec (wr _ _) _)) =>
        rewrite regs_wr;
        apply same_config_store;
        [reflexivity | discriminate | apply same_config_tick]
    | |- same_config _ (regs (exec (rd _) _)) =>
        rewrite regs_rd; apply same_config_tick
    | |- same_config _ (regs (exec (rd_bit _) _)) =>
        rewrite regs_rd_bit; apply same_config_tick
    | |- same_config _ (regs (exec (__delay_ms _) _)) =>
        rewrite regs_delay; apply same_config_tick
    | |- same_config _ (regs (exec (set_freq ?v) ?w)) =>
        change (regs (exec (set_freq v) w)) with (regs w)
    | |- same_config _ (regs (exec get_freq ?w)) =>
        change (regs (exec get_freq w)) with (regs w)
    | |- same_config _ (regs (Nat.iter _ tick _)) =>
        apply same_config_iter
    end;
  exact Hw.

Lemma blink_same_config c w :
  same_config c (regs w) ->
  holds blink (fun o => same_config c (snd o))
        (fun _ w' => same_config c (regs w')) w.
Proof. intro Hw. unfold blink. hwalk ltac:(config Hw). config Hw. Qed.

Lemma startup_same_config c w :
  same_config c (regs w) ->
  holds startup (fun o => same_config c (snd o))
        (fun _ w' => same_config c (regs w')) w.
Proof.
  intro Hw. unfold startup.
  apply holds_for with (I := fun w' => same_config c (regs w')); [|exact Hw].
  intros w' Hw'. now apply blink_same_config.
Qed.

Lemma prelude_same_config c w :
  same_config c (regs w) ->
  holds prelude (fun o => same_config c (snd o))
        (fun _ w' => same_config c (regs w')) w.
Proof. intro Hw. unfold prelude. hwalk ltac:(config Hw). config Hw. Qed.

Lemma gate_window_same_config c w :
  same_config c (regs w) ->
  holds gate_window (fun o => same_config c (snd o))
        (fun _ w' => same_config c (regs w')) w.
Proof. intro Hw. unfold gate_window. hwalk ltac:(config Hw). config Hw. Qed.

Lemma read_count_same_config c w :
  same_config c (regs w) ->
  holds read_count (fun o => same_config c (snd o))
        (fun _ w' => same_config c (regs w')) w.
Proof. intro Hw. unfold read_count. hwalk ltac:(config Hw). config Hw. Qed.

Lemma drive_outputs_same_config c w :
  same_config c (regs w) ->
  holds drive_outputs (fun o => same_config c (snd o))
        (fun _ w' => same_config c (regs w')) w.
Proof. intro Hw. unfold drive_outputs. hwalk ltac:(config Hw); config Hw. Qed.

Lemma reset_counter_same_config c w :
  same_config c (regs w) ->
  holds reset_counter (fun o => same_config c (snd o))
        (fun _ w' => same_config c (regs w')) w.
Proof. intro Hw. unfold reset_counter. hwalk ltac:(config Hw). config Hw. Qed.

Lemma loop_body_same_config c w :
  same_config c (regs w) ->
  holds loop_body (fun o => same_config c (snd o))
        (fun _ w' => same_config c (regs w')) w.
Proof.
  intro Hw. unfold loop_body.
  eapply holds_seq; [now apply gate_window_same_config|]. intros w1 H1.
  eapply holds_seq; [now apply read_count_same_config|]. intros w2 H2.
  eapply holds_seq; [now apply drive_outputs_same_config|]. intros w3 H3.
  now apply reset_counter_same_config.
Qed.

Lemma after_init_same_config c n w :
  same_config c (regs w) ->
  holds (startup ;; prelude ;; cycles n) (fun o => same_config c (snd o))
        (fun _ w' => same_config c (regs w')) w.
Proof.
  intro Hw.
  eapply holds_seq; [now apply startup_same_config|]. intros w1 H1.
  eapply holds_seq; [now apply prelude_same_config|]. intros w2 H2.
  apply holds_for with (I := fun w' => same_config c (regs w')); [|exact H2].
  intros w' Hw'. now apply loop_body_same_config.
Qed.

(** The value [init] leaves in a register that the counter does not
    write. *)
Ltac init_value :=
  unfold init; unbind;
  repeat (rewrite regs_wr, store_other by discriminate;
          rewrite tick_other by reflexivity);
  rewrite regs_wr; reflexivity.

Lemma init_interrupts w :
  regs (exec init w) INTCON = 0 /\ regs (exec init w) PIE1 = 0 /\
  regs (exec init w) PIE2 = 0 /\ regs (exec init w) PIE3 = 0.
Proof. repeat split; init_value. Qed.

Lemma init_directions w :
  regs (exec init w) TRISA = 56 /\ regs (exec init w) TRISC = 0.
Proof. split; init_value. Qed.

Lemma init_timer1 w : regs (exec init w) T1CON = 132.
Proof. init_value. Qed.

Lemma init_sets w r :
  initialised r = true -> regs (exec init w) r = init_setting r.
Proof. destruct r; intro H; try discriminate H; init_value. Qed.

(** X3: after [init], no access of [main] changes a configuration register
    or a configuration bit of T1CON: the interrupts stay disabled, the pin
    directions and the clock source of the counter stay as configured. *)
Theorem configuration_frozen w0 n :
  Forall (fun o => same_config (regs (exec init w0)) (snd o))
         (trace (startup ;; prelude ;; cycles n) (exec init w0)) /\
  Forall (fun o => snd o INTCON = 0 /\ snd o PIE1 = 0 /\ snd o PIE2 = 0 /\
                   snd o PIE3 = 0 /\ snd o TRISA = 56 /\ snd o TRISC = 0 /\
                   forall k, 0 < k ->
                     Z.testbit (snd o T1CON) k = Z.testbit 132 k)
         (trace (startup ;; prelude ;; cycles n) (exec init w0)).
Proof.
  assert (H : Forall (fun o => same_config (regs (exec init w0)) (snd o))
                (trace (startup ;; prelude ;; cycles n) (exec init w0))).
  { apply (holds_trace _ _ _ _
             (after_init_same_config (regs (exec init w0)) n (exec init w0)
                (conj (fun r _ => eq_refl) (fun k _ => eq_refl)))). }
  split; [exact H|].
  eapply Forall_impl; [|exact H].
  intros o [Hr Hk].
  rewrite !Hr by reflexivity.
  rewrite !init_sets by reflexivity.
  repeat (split; [reflexivity|]).
  intros k Hpos. rewrite Hk by exact Hpos. now rewrite init_sets.
Qed.

(** ** The state at the entry of the loop *)

Lemma reg_wr_bit p v w r :
  is_tmr1 r = false -> is_tmr1 (fst p) = false ->
  regs (exec (wr_bit p v) w) r =
    if sfr_beq (fst p) r
    then (if Z.testbit v 0 then Z.setbit (regs w (fst p)) (snd p)
          else Z.clearbit (regs w (fst p)) (snd p))
    else regs w r.
Proof.
  intros Hr Hp. rewrite regs_wr_bit. unfold store_bit, upd.
  now rewrite !tick_other by assumption.
Qed.

Lemma reg_wr r0 v w r :
  is_tmr1 r = false ->
  regs (exec (wr r0 v) w) r =
    if sfr_beq (latch_of r0) r then v mod 256 else regs w r.
Proof.
  intro Hr. rewrite regs_wr. unfold store, upd.
  now rewrite tick_other by assumption.
Qed.

Lemma reg_delayerMs d w r :
  is_tmr1 r = false -> regs (exec (delayerMs d) w) r = regs w r.
Proof. intro Hr. rewrite exec_delayerMs. now apply iter_tick_other. Qed.

(** Registers that the counter does not write, tracked back through the
    steps taken. *)
Ltac regs_back :=
  repeat match goal with
    | |- context [regs (exec (wr_bit ?p ?v) ?w) ?r] =>
        rewrite (reg_wr_bit p v w r) by reflexivity
    | |- context [regs (exec (wr ?r0 ?v) ?w) ?r] =>
        rewrite (reg_wr r0 v w r) by reflexivity
    | |- context [regs (exec (delayerMs ?d) ?w) ?r] =>
        rewrite (reg_delayerMs d w r) by reflexivity
    end;
  cbn [sfr_beq latch_of fst snd
       LED_IGNITION LED_LINK MOS_GATE INPUT_DISABLE TMR1ON].

Lemma blink_LATC w :
  regs w LATC = 0 \/ regs w LATC = 2 -> regs (exec blink w) LATC = 2.
Proof.
  intro H. unfold blink. unbind. regs_back.
  destruct H as [-> | ->]; reflexivity.
Qed.

Lemma reg_wr_bit_other p v w r :
  is_tmr1 r = false -> fst p <> r -> regs (exec (wr_bit p v) w) r = regs w r.
Proof.
  intros Hr Hne. rewrite regs_wr_bit, store_bit_other by exact Hne.
  now apply tick_other.
Qed.

Lemma blink_other w r :
  is_tmr1 r = false -> r <> LATC -> regs (exec blink w) r = regs w r.
Proof.
  intros Hr Hne. unfold blink. unbind.
  assert (Hp : forall k, fst ((LATC, k) : pin) <> r)
    by (intros k E; apply Hne; now rewrite <- E).
  rewrite reg_delayerMs by exact Hr.
  rewrite (reg_wr_bit_other LED_LINK), (reg_wr_bit_other LED_IGNITION)
    by (exact Hr || apply Hp).
  rewrite reg_delayerMs by exact Hr.
  rewrite (reg_wr_bit_other LED_LINK), (reg_wr_bit_other LED_IGNITION)
    by (exact Hr || apply Hp).
  reflexivity.
Qed.

Lemma startup_LATC w : regs w LATC = 0 -> regs (exec startup w) LATC = 2.
Proof.
  intro H. unfold startup.
  assert (Hn : forall n, regs (exec (for_ n blink) w) LATC = 0 \/
                         regs (exec (for_ n blink) w) LATC = 2).
  { induction n as [|n IH]; [now left|].
    right. rewrite exec_for_snoc. now apply blink_LATC. }
  rewrite exec_for_snoc. apply blink_LATC, Hn.
Qed.

Lemma startup_other w r :
  is_tmr1 r = false -> r <> LATC -> regs (exec startup w) r = regs w r.
Proof.
  intros Hr Hne. unfold startup. generalize 5%nat as n.
  induction n as [|n IH]; [reflexivity|].
  rewrite exec_for_snoc, blink_other by assumption. exact IH.
Qed.

Lemma prelude_reg w r :
  is_tmr1 r = false ->
  regs (exec prelude w) r =
    if sfr_beq LATA r then Z.clearbit (regs w LATA) 4 else regs w r.
Proof.
  intro Hr. unfold prelude. unbind.
  rewrite reg_wr_bit by (reflexivity || assumption).
  cbn [fst snd INPUT_DISABLE]. change (Z.testbit OFF 0) with false. cbv iota.
  rewrite !reg_wr by (reflexivity || assumption). cbn [latch_of].
  destruct r; try discriminate Hr; reflexivity.
Qed.

Lemma freq_init w : freq (exec init w) = freq w.
Proof.
  revert w. unfold init.
  repeat lazymatch goal with
         | |- forall w, freq (exec (bind _ _) w) = freq w => apply freq_seq
         | |- forall w, freq (exec (wr _ _) w) = freq w => reflexivity
         end.
Qed.

Lemma freq_prelude w : freq (exec prelude w) = freq w.
Proof. unfold prelude. unbind. reflexivity. Qed.

(** X4: whatever the registers held at power-on and whatever the line
    carried since, the loop is entered with every register at the constant
    [init] gave it, except LATC, which holds 2 (link led on), with the
    count at zero and [freq] untouched. *)
Theorem loop_entry_determined w0 :
  (forall r, initialised r = true -> r <> LATC ->
             regs (loop_entry w0) r = init_setting r) /\
  regs (loop_entry w0) LATC = 2 /\
  regs (loop_entry w0) TMR1H = 0 /\ regs (loop_entry w0) TMR1L = 0 /\
  freq (loop_entry w0) = freq w0.
Proof.
  split; [|split; [|split; [|split]]].
  - intros r Hr Hne. rewrite loop_entry_exec.
    assert (Ht : is_tmr1 r = false) by (destruct r; (discriminate || reflexivity)).
    rewrite prelude_reg by exact Ht.
    destruct (sfr_beq LATA r) eqn:E.
    + apply internal_sfr_dec_bl in E. subst r.
      rewrite startup_other, init_sets by (reflexivity || discriminate).
      reflexivity.
    + rewrite startup_other, init_sets by assumption. reflexivity.
  - rewrite loop_entry_exec, prelude_reg by reflexivity. cbn [sfr_beq].
    apply startup_LATC. now rewrite init_sets.
  - rewrite <- exec_main_0. apply (main_counter_idle 0 w0).
  - rewrite <- exec_main_0. apply (main_counter_idle 0 w0).
  - rewrite loop_entry_exec, freq_prelude.
    destruct (startup_frame (exec init w0)) as [-> _]. apply freq_init.
Qed.

(** ** A silent line *)

Lemma silent_tl inp : silent inp -> silent (tl inp).
Proof. intro H. destruct H; [constructor | assumption]. Qed.

Lemma silent_skipn n inp : silent inp -> silent (skipn n inp).
Proof.
  revert inp; induction n as [|n IH]; intros inp H; [exact H|].
  destruct H; [constructor | now apply IH].
Qed.

Lemma pulses_silent n inp : silent inp -> pulses n inp = 0.
Proof.
  unfold pulses. revert inp; induction n as [|n IH]; intros inp H.
  - reflexivity.
  - destruct H as [|p inp Hp H]; [reflexivity|].
    cbn [firstn fold_right]. rewrite IH by exact H. now subst p.
Qed.

(** The input left after the steps taken is a tail of the input. *)
Ltac quiet Hw :=
  repeat lazymatch goal with
    | |- silent (input (exec (wr _ _) ?w)) =>
        change (silent (tl (input w))); apply silent_tl
    | |- silent (input (exec (wr_bit _ _) ?w)) =>
        change (silent (tl (input w))); apply silent_tl
    | |- silent (input (exec (rd _) ?w)) =>
        change (silent (tl (input w))); apply silent_tl
    | |- silent (input (exec (rd_bit _) ?w)) =>
        change (silent (tl (input w))); apply silent_tl
    | |- silent (input (exec (__delay_ms _) ?w)) =>
        change (silent (tl (input w))); apply silent_tl
    | |- silent (input (exec (set_freq _) ?w)) => change (silent (input w))
    | |- silent (input (exec get_freq ?w)) => change (silent (input w))
    | |- silent (input (exec (delayerMs _) _)) => rewrite exec_delayerMs
    | |- silent (input (Nat.iter _ tick _)) =>
        rewrite iter_tick_input; apply silent_skipn
    end;
  exact Hw.

Lemma init_silent w : silent (input w) -> silent (input (exec init w)).
Proof. intro Hw. unfold init. unbind. quiet Hw. Qed.

Lemma blink_silent w : silent (input w) -> silent (input (exec blink w)).
Proof. intro Hw. unfold blink. unbind. quiet Hw. Qed.

Lemma for_silent n body w :
  (forall w', silent (input w') -> silent (input (exec body w'))) ->
  silent (input w) -> silent (input (exec (for_ n body) w)).
Proof.
  intros Hb Hw. induction n as [|n IH]; [exact Hw|].
  rewrite exec_for_snoc. now apply Hb.
Qed.

Lemma prelude_silent w : silent (input w) -> silent (input (exec prelude w)).
Proof. intro Hw. unfold prelude. unbind. quiet Hw. Qed.

Lemma loop_body_silent w :
  silent (input w) -> silent (input (exec loop_body w)).
Proof.
  intro Hw. rewrite loop_body_exec.
  assert (H1 : silent (input (exec gate_window w)))
    by (unfold gate_window; unbind; quiet Hw).
  assert (H2 : silent (input (exec read_count (exec gate_window w)))).
  { revert H1. generalize (exec gate_window w). intros w1 H1.
    unfold read_count. unbind. quiet H1. }
  assert (H3 : silent (input (exec drive_outputs
                                (exec read_count (exec gate_window w))))).
  { revert H2. generalize (exec read_count (exec gate_window w)).
    intros w2 H2. rewrite drive_outputs_exec.
    destruct (classify (freq w2)); unbind; quiet H2. }
  revert H3.
  generalize (exec drive_outputs (exec read_count (exec gate_window w))).
  intros w3 H3. unfold reset_counter. unbind. quiet H3.
Qed.

Lemma main_silent n w0 :
  silent (input w0) -> silent (input (exec (main n) w0)).
Proof.
  intro Hw. rewrite exec_main, loop_entry_exec.
  apply for_silent; [apply loop_body_silent|].
  apply prelude_silent. apply for_silent; [apply blink_silent|].
  now apply init_silent.
Qed.

Lemma silent_turn n w0 :
  silent (input w0) -> freq (exec (main (S n)) w0) = 0.
Proof.
  intro Hw. rewrite exec_main_S.
  rewrite loop_body_count by apply main_counter_idle.
  unfold window_pulses.
  rewrite pulses_silent; [reflexivity|].
  apply silent_tl. now apply main_silent.
Qed.

(** X5: on a line without pulses every turn reads 0, leaves the outputs at
    (off, on, off), and the MOS gate is off after every access from the
    return of [init]. *)
Theorem silent_line_keeps_idle w0 n :
  silent (input w0) ->
  freq (exec (main (S n)) w0) = 0 /\
  outputs (regs (exec (main (S n)) w0)) = (false, true, false) /\
  Forall mos_off (trace (startup ;; prelude ;; cycles (S n)) (exec init w0)).
Proof.
  intro Hw. split; [now apply silent_turn | split].
  - pose proof (loop_body_outputs (exec (main n) w0)) as H.
    rewrite <- exec_main_S, silent_turn in H by exact Hw. exact H.
  - destruct (init_clears_latches w0) as [HC _].
    assert (H1 : mosGate (regs (exec init w0)) = false)
      by now apply mosGate_of_cleared_latch.
    assert (H2 : forall k, (k < S n)%nat ->
              classify (freq (exec (main (S k)) w0)) <> IGNITION).
    { intros k _. rewrite silent_turn by exact Hw. discriminate. }
    destruct (after_init_mos_off (S n) w0 H1 H2) as [Ha _]. exact Ha.
Qed.

Lemma silent_line_keeps_idle_witness :
  silent (input (power_on [])) /\
  freq (exec (main 2) (power_on [])) = 0 /\
  outputs (regs (exec (main 2) (power_on []))) = (false, true, false) /\
  Forall mos_off (trace (startup ;; prelude ;; cycles 2)
                        (exec init (power_on []))).
Proof.
  assert (H : silent (input (power_on []))) by constructor.
  split; [exact H | exact (silent_line_keeps_idle (power_on []) 1 H)].
Defined.

(** ** The leds and the gate *)

(** X6: after every turn, and at every access of the measurement that
    follows, the ignition led shows the state of the MOS gate and the two
    leds are not both on. *)
Theorem ignition_led_mirrors_gate w0 n :
  let rs := regs (exec (main (S n)) w0) in
  ignitionLed rs = mosGate rs /\ ignitionLed rs && linkLed rs = false /\
  Forall (fun o => ignitionLed (snd o) = mosGate (snd o) /\
                   ignitionLed (snd o) && linkLed (snd o) = false)
         (trace (gate_window ;; read_count) (exec (main (S n)) w0)).
Proof.
  cbv zeta.
  assert (H : ignitionLed (regs (exec (main (S n)) w0)) =
              mosGate (regs (exec (main (S n)) w0)) /\
              ignitionLed (regs (exec (main (S n)) w0)) &&
              linkLed (regs (exec (main (S n)) w0)) = false).
  { rewrite exec_main_S.
    pose proof (loop_body_outputs (exec (main n) w0)) as H.
    destruct (classify (freq (exec loop_body (exec (main n) w0))));
      apply triple_eq in H; destruct H as (H1 & H2 & H3);
      rewrite H1, H2, H3; split; reflexivity. }
  destruct H as [Ha Hb]. split; [exact Ha | split; [exact Hb|]].
  destruct (measurement_holds_outputs (exec (main (S n)) w0)) as [Ht _].
  eapply Forall_impl; [|exact Ht].
  intros o Ho. apply triple_eq in Ho. destruct Ho as (H1 & H2 & H3).
  rewrite H1, H2, H3. split; assumption.
Qed.

(** ** The delay function *)

Lemma elapsed_app l1 l2 : elapsed_ms (l1 ++ l2) = elapsed_ms l1 + elapsed_ms l2.
Proof.
  unfold elapsed_ms. induction l1 as [|o l1 IH]; [reflexivity|].
  cbn [app fold_right]. rewrite IH. destruct (fst o); lia.
Qed.

Lemma elapsed_delays n w :
  elapsed_ms (trace (for_ n (__delay_ms 1)) w) = Z.of_nat n.
Proof.
  induction n as [|n IH]; [reflexivity|].
  rewrite trace_for_snoc, elapsed_app, IH. cbn. lia.
Qed.

Lemma input_delayerMs d w :
  input (exec (delayerMs d) w) = skipn (Z.to_nat d) (input w).
Proof. rewrite exec_delayerMs. apply iter_tick_input. Qed.

(** X7: [delayerMs d] makes [d] delays of 1 ms and nothing else: [freq]
    and the registers other than the count keep their values, a stopped
    counter keeps its count, a running one advances by the pulses of the
    [d] steps, modulo 2^16. *)
Theorem delayerMs_waits d w :
  0 <= d <= 65535 ->
  map fst (trace (delayerMs d) w) = repeat (DelayMs 1) (Z.to_nat d) /\
  elapsed_ms (trace (delayerMs d) w) = d /\
  freq (exec (delayerMs d) w) = freq w /\
  input (exec (delayerMs d) w) = skipn (Z.to_nat d) (input w) /\
  (forall r, is_tmr1 r = false -> regs (exec (delayerMs d) w) r = regs w r) /\
  (pin_of (regs w) TMR1ON = false ->
   forall r, regs (exec (delayerMs d) w) r = regs w r) /\
  (pin_of (regs w) TMR1ON = true -> byte_range (regs w) ->
   counter16 (regs (exec (delayerMs d) w)) =
     (counter16 (regs w) + pulses (Z.to_nat d) (input w)) mod 65536).
Proof.
  intros [Hd _].
  split; [apply events_delayerMs|].
  split; [unfold delayerMs; rewrite elapsed_delays; lia|].
  split; [apply freq_delayerMs|].
  split; [apply input_delayerMs|].
  split; [intros r Hr; now apply reg_delayerMs|].
  split.
  - intros Hoff r. rewrite exec_delayerMs. now rewrite iter_tick_off.
  - intros Hon Hr. rewrite exec_delayerMs. now apply iter_tick_count.
Qed.

Lemma delayerMs_waits_witness :
  0 <= 50 <= 65535 /\
  elapsed_ms (trace (delayerMs 50) (cleared [3; 4]%N)) = 50.
Proof.
  assert (H : 0 <= 50 <= 65535) by lia.
  split; [exact H|].
  exact (proj1 (proj2 (delayerMs_waits 50 (cleared [3; 4]%N) H))).
Defined.

Lemma iter_tick_add a b w :
  Nat.iter (a + b) tick w = Nat.iter b tick (Nat.iter a tick w).
Proof.
  rewrite Nat.add_comm. apply Nat.iter_add.
Qed.

Lemma delays_shift a n k w :
  map (fun j => (DelayMs 1, regs (Nat.iter (S j) tick (Nat.iter a tick w))))
      (seq k n) =
  map (fun j => (DelayMs 1, regs (Nat.iter (S j) tick w))) (seq (a + k) n).
Proof.
  revert k; induction n as [|n IH]; intro k; [reflexivity|].
  cbn [seq map]. f_equal.
  - f_equal. f_equal. rewrite <- iter_tick_add. f_equal. lia.
  - rewrite <- Nat.add_succ_r. apply IH.
Qed.

(** X8: as long as [a + b] fits the 16-bit parameter, waiting [a] and then
    [b] milliseconds is waiting [a + b]: same final state, same accesses;
    waiting 0 milliseconds does nothing. *)
Theorem delayerMs_add a b w :
  0 <= a -> 0 <= b -> a + b <= 65535 ->
  exec (delayerMs a ;; delayerMs b) w = exec (delayerMs (a + b)) w /\
  trace (delayerMs a ;; delayerMs b) w = trace (delayerMs (a + b)) w /\
  exec (delayerMs 0) w = w /\ trace (delayerMs 0) w = [].
Proof.
  intros Ha Hb _. split; [|split; [|split; reflexivity]].
  - rewrite exec_bind, !exec_delayerMs, Z2Nat.inj_add by assumption.
    now rewrite iter_tick_add.
  - rewrite trace_bind, exec_delayerMs. unfold delayerMs.
    rewrite !trace_delays, Z2Nat.inj_add, seq_app, map_app by assumption.
    f_equal. rewrite delays_shift. f_equal. f_equal. lia.
Qed.

Lemma delayerMs_add_witness :
  0 <= 50 /\ 0 <= 50 /\ 50 + 50 <= 65535 /\
  exec (delayerMs 50 ;; delayerMs 50) (cleared [3; 4]%N) =
    exec (delayerMs (50 + 50)) (cleared [3; 4]%N).
Proof.
  assert (H : 0 <= 50) by lia.
  assert (H' : 50 + 50 <= 65535) by lia.
  split; [exact H | split; [exact H | split; [exact H'|]]].
  exact (proj1 (delayerMs_add 50 50 (cleared [3; 4]%N) H H H')).
Defined.

(** ** The time spent in delays *)

Lemma takes_bind {A B} (m : M A) (k : A -> M B) a b :
  takes m a -> (forall x, takes (k x) b) -> takes (bind m k) (a + b).
Proof.
  intros Hm Hk w. rewrite trace_bind, elapsed_app, Hm, Hk. reflexivity.
Qed.

Lemma takes_if {A} (c : bool) (m1 m2 : M A) t :
  takes m1 t -> takes m2 t -> takes (if c then m1 else m2) t.
Proof. now destruct c. Qed.

Lemma takes_for n body t :
  takes body t -> takes (for_ n body) (Z.of_nat n * t).
Proof.
  intros Hb w. revert w; induction n as [|n IH]; intro w; [reflexivity|].
  rewrite trace_for_S, elapsed_app, Hb, IH. lia.
Qed.

Lemma takes_delayerMs d : 0 <= d -> takes (delayerMs d) d.
Proof. intros Hd w. unfold delayerMs. rewrite elapsed_delays. lia. Qed.

Lemma takes_eq {A} (m : M A) a b : takes m a -> a = b -> takes m b.
Proof. now intros H <-. Qed.

Lemma takes_wr r v : takes (wr r v) 0.
Proof. intro w. reflexivity. Qed.

Lemma takes_wr_bit p v : takes (wr_bit p v) 0.
Proof. intro w. reflexivity. Qed.

Lemma takes_rd r : takes (rd r) 0.
Proof. intro w. reflexivity. Qed.

Lemma takes_rd_bit p : takes (rd_bit p) 0.
Proof. intro w. reflexivity. Qed.

Lemma takes_get_freq : takes get_freq 0.
Proof. intro w. reflexivity. Qed.

Lemma takes_set_freq v : takes (set_freq v) 0.
Proof. intro w. reflexivity. Qed.

(** The delays of a block, added up along its statements. *)
Ltac clock :=
  repeat lazymatch goal with
    | |- forall _, takes _ _ => intro
    | |- takes (bind _ _) ?t =>
        first [ is_evar t; eapply takes_bind
              | eapply takes_eq; [eapply takes_bind|] ]
    | |- takes (if _ then _ else _) _ => apply takes_if
    | |- takes (wr _ _) _ => apply takes_wr
    | |- takes (wr_bit _ _) _ => apply takes_wr_bit
    | |- takes (rd _) _ => apply takes_rd
    | |- takes (rd_bit _) _ => apply takes_rd_bit
    | |- takes get_freq _ => apply takes_get_freq
    | |- takes (set_freq _) _ => apply takes_set_freq
    | |- takes (delayerMs _) _ => apply takes_delayerMs; lia
    end.

Lemma takes_init : takes init 0.
Proof. eapply takes_eq; [unfold init; clock; reflexivity | reflexivity]. Qed.

Lemma takes_blink : takes blink 100.
Proof. eapply takes_eq; [unfold blink; clock; reflexivity | reflexivity]. Qed.

Lemma takes_startup : takes startup 500.
Proof.
  eapply takes_eq; [apply takes_for, takes_blink | reflexivity].
Qed.

Lemma takes_prelude : takes prelude 0.
Proof. eapply takes_eq; [unfold prelude; clock; reflexivity | reflexivity]. Qed.

Lemma takes_loop_body : takes loop_body 1000.
Proof.
  eapply takes_eq.
  - unfold loop_body, gate_window, read_count, drive_outputs, reset_counter.
    clock; reflexivity.
  - reflexivity.
Qed.

(** X9: [init] spends no time in delays, the startup led cycle 500 ms,
    every turn of the loop 1000 ms, whatever branch it takes: [main] cut
    after [n] turns has waited 500 + 1000 n milliseconds. *)
Theorem main_elapsed n w0 :
  elapsed_ms (trace (main n) w0) = 500 + 1000 * Z.of_nat n /\
  elapsed_ms (trace init w0) = 0 /\
  elapsed_ms (trace startup (exec init w0)) = 500 /\
  elapsed_ms (trace loop_body (exec (main n) w0)) = 1000.
Proof.
  split; [|split; [apply takes_init | split;
                  [apply takes_startup | apply takes_loop_body]]].
  rewrite trace_main, !elapsed_app.
  rewrite takes_init, takes_startup, takes_prelude.
  unfold cycles. rewrite (takes_for n loop_body 1000 takes_loop_body). lia.
Qed.

(** ** Roll-over of the counter *)

(** X10: the counter rolls over silently: a window that gets 65536 k + c
    pulses with c between 300 and 600 reads c and turns the MOS gate on. *)
Theorem rolled_over_count_fires w0 n k c :
  window_pulses (input (exec (main n) w0)) = 65536 * k + c ->
  300 <= c <= 600 ->
  freq (exec (main (S n)) w0) = c /\
  mosGate (regs (exec (main (S n)) w0)) = true.
Proof.
  intros Hp Hc. rewrite exec_main_S.
  pose proof (loop_body_count _ (main_counter_idle n w0)) as Hf.
  assert (Hm : window_pulses (input (exec (main n) w0)) mod 65536 = c).
  { rewrite Hp, Z.add_comm, Z.mul_comm, Z.mod_add by lia.
    apply Z.mod_small. lia. }
  rewrite Hm in Hf. split; [exact Hf|].
  pose proof (loop_body_outputs (exec (main n) w0)) as Ho.
  rewrite Hf in Ho.
  replace (classify c) with IGNITION in Ho
    by (symmetry; now apply classify_ignition).
  apply triple_eq in Ho. now destruct Ho as (_ & _ & Ho).
Qed.

Lemma rolled_over_count_fires_witness :
  let w0 := power_on (silence steps_before_loop ++ [0; 65986]%N) in
  window_pulses (input (exec (main 0) w0)) = 65536 * 1 + 450 /\
  300 <= 450 <= 600 /\
  freq (exec (main 1) w0) = 450 /\
  mosGate (regs (exec (main 1) w0)) = true.
Proof.
  cbv zeta.
  assert (H1 : window_pulses
                 (input (exec (main 0)
                    (power_on (silence steps_before_loop ++ [0; 65986]%N))))
               = 65536 * 1 + 450) by (vm_compute; reflexivity).
  assert (H2 : 300 <= 450 <= 600) by lia.
  split; [exact H1 | split; [exact H2|]].
  exact (rolled_over_count_fires _ 0 1 450 H1 H2).
Defined.

(** ** The accesses of a turn, in order *)

Lemma events_gate_window w :
  map fst (trace gate_window w) =
  [WrBit TMR1ON true] ++ repeat (DelayMs 1) (Z.to_nat 1000) ++
  [WrBit TMR1ON false].
Proof.
  unfold gate_window.
  rewrite (trace_bind (wr_bit TMR1ON ON)). cbv beta.
  rewrite (trace_bind (delayerMs 1000)). cbv beta.
  rewrite !map_app, events_delayerMs. reflexivity.
Qed.

Lemma events_read_count w :
  map fst (trace read_count w) = [Rd TMR1H; Rd TMR1L].
Proof. reflexivity. Qed.

Lemma events_reset_counter w :
  map fst (trace reset_counter w) = [Wr TMR1H 0; Wr TMR1L 0].
Proof. reflexivity. Qed.

Lemma events_drive_outputs w :
  map fst (trace drive_outputs w) =
  match classify (freq w) with
  | IGNITION =>
      [WrBit LED_IGNITION true; WrBit LED_LINK false; WrBit MOS_GATE true]
  | LINK_OK =>
      [WrBit LED_IGNITION false; RdBit LED_LINK;
       WrBit LED_LINK (negb (linkLed (regs w))); WrBit MOS_GATE false]
  | IDLE =>
      [WrBit LED_IGNITION false; WrBit MOS_GATE false; WrBit LED_LINK true]
  end.
Proof.
  rewrite trace_drive_outputs.
  destruct (classify (freq w)); try reflexivity.
  set (w1 := exec (wr_bit LED_IGNITION OFF) w).
  assert (Hl : pin_of (regs (tick w1)) LED_LINK = linkLed (regs w))
    by (subst w1; unfold linkLed; now pins).
  transitivity
    [WrBit LED_IGNITION false; RdBit LED_LINK;
     WrBit LED_LINK
       (Z.testbit (Z.lnot (Z.b2z (pin_of (regs (tick w1)) LED_LINK))) 0);
     WrBit MOS_GATE false]; [reflexivity|].
  now rewrite lnot_b2z_bit0, Hl.
Qed.

(** X11: the accesses of a turn, in order: TMR1ON set, 1000 delays of
    1 ms, TMR1ON cleared, TMR1H read, TMR1L read, the writes of the branch
    taken (the gate last in the ignition and link branches, before the link
    led in the idle branch), TMR1H cleared, TMR1L cleared. *)
Theorem turn_accesses w0 n :
  let w := exec (main n) w0 in
  map fst (trace loop_body w) =
  [WrBit TMR1ON true] ++ repeat (DelayMs 1) (Z.to_nat 1000) ++
  [WrBit TMR1ON false; Rd TMR1H; Rd TMR1L] ++
  match classify (freq (exec (main (S n)) w0)) with
  | IGNITION =>
      [WrBit LED_IGNITION true; WrBit LED_LINK false; WrBit MOS_GATE true]
  | LINK_OK =>
      [WrBit LED_IGNITION false; RdBit LED_LINK;
       WrBit LED_LINK (negb (linkLed (regs w))); WrBit MOS_GATE false]
  | IDLE =>
      [WrBit LED_IGNITION false; WrBit MOS_GATE false; WrBit LED_LINK true]
  end ++
  [Wr TMR1H 0; Wr TMR1L 0].
Proof.
  cbv zeta. rewrite exec_main_S, loop_body_freq_read.
  generalize (exec (main n) w0). intro w.
  rewrite trace_loop_body, !map_app.
  rewrite events_gate_window, events_read_count, events_drive_outputs,
    events_reset_counter.
  destruct (read_count_after_window w) as [Hr _].
  unfold linkLed. rewrite Hr, gate_window_pin by reflexivity.
  match goal with
  | |- context [?X ++ [Wr TMR1H 0; Wr TMR1L 0]] => generalize X
  end.
  generalize (repeat (DelayMs 1) (Z.to_nat 1000)). intros R M.
  rewrite <- !app_assoc. reflexivity.
Qed.
